(** * JWT authentication and role authorization (app/core/security.py,
      app/models/auth.py, app/core/exceptions.py)

    A shallow embedding of the authentication subsystem: the JWKS cache
    with its one-hour time-to-live, token validation, header parsing and the
    role gates.

    Modelling conventions.
    - [time.time()] returns a float; timestamps are exact rationals here
      ([Q], seconds since the epoch) and float rounding is not modelled.
    - The module globals [_jwks_cache] and [_jwks_last_updated] are the
      fields of an explicit [World] that every operation threads through.
    - Exceptions are values of [exn]; a computation returns [Ok v] or
      [Raise e] together with the world it leaves behind.
    - python-jose, httpx and the pydantic constructor are outside the
      repository: their answers are inputs of the model (class [External],
      type [http_outcome]). *)

From Stdlib Require Import QArith Lqa Ascii String.
From stdpp Require Import gmap strings list fin_maps.

Set Warnings "-register-all".
Local Open Scope string_scope.

(** ** Exceptions (app/core/exceptions.py) *)

Inductive HTTPStatus :=
  | UNAUTHORIZED            (* 401 *)
  | FORBIDDEN               (* 403 *)
  | INTERNAL_SERVER_ERROR   (* 500 *)
  | SERVICE_UNAVAILABLE.    (* 503 *)

Definition status_value (s : HTTPStatus) : Z :=
  match s with
  | UNAUTHORIZED => 401
  | FORBIDDEN => 403
  | INTERNAL_SERVER_ERROR => 500
  | SERVICE_UNAVAILABLE => 503
  end.

(** The exceptions that travel through security.py.  [AuthException] is a
    subclass of [AppException]; [JWTError] is python-jose's;
    [OtherException] stands for every other Python exception
    (AttributeError, TypeError, pydantic's ValidationError, JWKError ...). *)
Inductive exn :=
  | AppException (message : string) (http_status : HTTPStatus)
  | AuthException (message : string) (http_status : HTTPStatus)
  | JWTError
  | OtherException.

(** [AppException(message)] and [AuthException(message)] with the default
    [http_status] of their constructors. *)
Definition AppException_default (message : string) : exn :=
  AppException message INTERNAL_SERVER_ERROR.
Definition AuthException_default (message : string) : exn :=
  AuthException message UNAUTHORIZED.

Inductive result (A : Type) :=
  | Ok (v : A)
  | Raise (e : exn).
Arguments Ok {A} v.
Arguments Raise {A} e.

(** ** JSON values as Python sees them *)

(** What [json.loads] builds: None, bool, number, str, list, dict.  A dict
    keeps its entries in insertion order; keys are strings.  Non-finite
    floats are left out. *)
Inductive json :=
  | JNull
  | JBool (b : bool)
  | JNum (q : Q)
  | JStr (s : string)
  | JArr (items : list json)
  | JObj (entries : list (string * json)).

(** Python truthiness, as used by [not x]. *)
Definition truthy (v : json) : bool :=
  match v with
  | JNull => false
  | JBool b => b
  | JNum q => negb (Qeq_bool q 0)
  | JStr s => negb (String.eqb s "")
  | JArr items => match items with [] => false | _ => true end
  | JObj entries => match entries with [] => false | _ => true end
  end.

(** [d.get(k)] on the entries of a dict: [None] when the key is absent. *)
Fixpoint dict_lookup (k : string) (d : list (string * json)) : option json :=
  match d with
  | [] => None
  | (k', v) :: d' => if String.eqb k k' then Some v else dict_lookup k d'
  end.

(** [d.get(k, default)] *)
Definition dict_get (d : list (string * json)) (k : string) (default : json) : json :=
  match dict_lookup k d with
  | Some v => v
  | None => default
  end.

Definition bool_num (b : bool) : Q := if b then 1%Q else 0%Q.

(** Python's [==] on JSON values: numbers compare by value, [True] and
    [False] are the numbers 1 and 0, lists compare element by element, dicts
    compare as maps (same size, same value under every key). *)
Fixpoint py_eq (a b : json) : bool :=
  match a, b with
  | JNull, JNull => true
  | JBool x, JBool y => Bool.eqb x y
  | JBool x, JNum q => Qeq_bool (bool_num x) q
  | JNum p, JBool y => Qeq_bool p (bool_num y)
  | JNum p, JNum q => Qeq_bool p q
  | JStr s, JStr t => String.eqb s t
  | JArr l, JArr m =>
      (fix all2 (l m : list json) : bool :=
         match l, m with
         | [], [] => true
         | x :: l', y :: m' => py_eq x y && all2 l' m'
         | _, _ => false
         end) l m
  | JObj d, JObj e =>
      Nat.eqb (length d) (length e) &&
      (fix sub (d : list (string * json)) : bool :=
         match d with
         | [] => true
         | (k, v) :: d' =>
             match dict_lookup k e with
             | Some w => py_eq v w
             | None => false
             end && sub d'
         end) d
  | _, _ => false
  end.

(** ** The process-wide state *)

(** [_jwks_cache] and [_jwks_last_updated] are the module globals of
    security.py.  The two counters are instrumentation: [http_requests]
    counts the [client.get(settings.JWKS_URI)] calls issued so far,
    [validate_calls] the entries into [validate_token]. *)
Record World := mkWorld {
  _jwks_cache : json;
  _jwks_last_updated : Q;
  http_requests : nat;
  validate_calls : nat
}.

(** The state right after the module is imported. *)
Definition initial_world : World :=
  {| _jwks_cache := JObj []; _jwks_last_updated := 0;
     http_requests := 0; validate_calls := 0 |}.

Definition _jwks_cache_ttl : Q := 3600.  (* 1 hour *)

(** State-and-exception monad of the async functions. *)
Definition M (A : Type) : Type := World → result A * World.

Definition ret {A} (v : A) : M A := fun w => (Ok v, w).
Definition raise {A} (e : exn) : M A := fun w => (Raise e, w).
Definition bind {A B} (c : M A) (k : A → M B) : M B :=
  fun w => match c w with
           | (Ok v, w') => k v w'
           | (Raise e, w') => (Raise e, w')
           end.
Definition lift {A} (r : result A) : M A := fun w => (r, w).

(** [try: body except ...: raise handler(e)] where every handler raises. *)
Definition try_except {A} (body : M A) (handler : exn → exn) : M A :=
  fun w => match body w with
           | (Ok v, w') => (Ok v, w')
           | (Raise e, w') => (Raise (handler e), w')
           end.

Notation "'let*' x ':=' c 'in' k" := (bind c (fun x => k))
  (at level 10, x name, c at level 100, k at level 200).

(** ** The key-set endpoint *)

(** What one [client.get(settings.JWKS_URI)] brings back: no response at
    all (transport error), or a status code and a body that [response.json()]
    parses ([Some v]) or rejects ([None]). *)
Inductive http_outcome :=
  | TransportError
  | Response (status_code : Z) (body : option json).

(** Modelled from the spec: httpx's [Response.raise_for_status] is not part
    of the repository; the spec says the fetch fails on a "non-2xx
    response". *)
Definition raise_for_status (status_code : Z) : bool :=
  (200 <=? status_code)%Z && (status_code <? 300)%Z.

(** The body of the [async with] block up to [response.json()]: the parsed
    document, or [None] when any step raises. *)
Definition fetch_document (o : http_outcome) : option json :=
  match o with
  | TransportError => None
  | Response status_code body =>
      if raise_for_status status_code then body else None
  end.

(** [current_time - _jwks_last_updated > _jwks_cache_ttl] *)
Definition ttl_exceeded (current_time : Q) (w : World) : bool :=
  negb (Qle_bool (current_time - _jwks_last_updated w) _jwks_cache_ttl).

(** The condition of the [if] in [get_jwks]. *)
Definition needs_refresh (current_time : Q) (w : World) : bool :=
  negb (truthy (_jwks_cache w)) || ttl_exceeded current_time w.

(** [get_jwks()], with the reading of [time.time()] and the answer the
    endpoint gives (if asked) as inputs. *)
Definition get_jwks (net : http_outcome) (current_time : Q) : M json :=
  fun w =>
    if needs_refresh current_time w then
      let w1 := {| _jwks_cache := _jwks_cache w;
                   _jwks_last_updated := _jwks_last_updated w;
                   http_requests := S (http_requests w);
                   validate_calls := validate_calls w |} in
      match fetch_document net with
      | Some document =>
          (Ok document,
           {| _jwks_cache := document;
              _jwks_last_updated := current_time;
              http_requests := http_requests w1;
              validate_calls := validate_calls w1 |})
      | None =>
          (Raise (AppException "Failed to fetch JWKS from authentication server"
                               SERVICE_UNAVAILABLE), w1)
      end
    else (Ok (_jwks_cache w), w).

(** ** Claims (app/models/auth.py) *)

(** JWT token data extracted from a validated token.  The typed dicts are
    finite maps; [aud] and [resource_access] are Optional. *)
Record JWTTokenData := mkJWTTokenData {
  sub : string;
  exp : Z;
  iat : Z;
  jti : string;
  iss : string;
  typ : string;
  azp : string;
  sid : string;
  realm_access : gmap string (list string);
  scope : string;
  preferred_username : string;
  email : string;
  aud : option (list string);
  resource_access : option (gmap string (gmap string (list string)))
}.

Module TokenData.

(** The loop body of the [roles] property:
    [if "roles" in client_roles: roles.extend(client_roles["roles"])]. *)
Definition extend_with (roles : list string)
    (client_roles : gmap string (list string)) : list string :=
  match client_roles !! "roles" with
  | Some l => (roles ++ l)%list
  | None => roles
  end.

(** [resource_access.values()].  A Python dict iterates in insertion order,
    the finite map in an order of its own; the order decides where a role
    stands in [roles], not whether it is there. *)
Definition values {V} (m : gmap string V) : list V := (map_to_list m).*2.

(** The [roles] property. *)
Definition roles (self : JWTTokenData) : list string :=
  let roles := [] in
  let roles :=
    if bool_decide (realm_access self ≠ ∅) then
      match realm_access self !! "roles" with
      | Some l => (roles ++ l)%list
      | None => roles
      end
    else roles in
  let roles :=
    match resource_access self with
    | Some ra =>
        if bool_decide (ra ≠ ∅) then foldl extend_with roles (values ra)
        else roles
    | None => roles
    end in
  roles.

(** [x in l] for a list of strings. *)
Definition py_in (x : string) (l : list string) : bool :=
  existsb (String.eqb x) l.

Definition has_role (self : JWTTokenData) (required_role : string) : bool :=
  py_in required_role (roles self).

Definition has_any_role (self : JWTTokenData) (required_roles : list string) : bool :=
  existsb (fun role => py_in role (roles self)) required_roles.

Definition has_all_roles (self : JWTTokenData) (required_roles : list string) : bool :=
  forallb (fun role => py_in role (roles self)) required_roles.

End TokenData.

(** ** The libraries behind security.py *)

(** What a library call does: return a value, raise [JWTError], or raise
    some other exception. *)
Inductive lib_result (A : Type) :=
  | LibOk (v : A)
  | LibJWTError
  | LibError.
Arguments LibOk {A} v.
Arguments LibJWTError {A}.
Arguments LibError {A}.

Definition of_lib {A} (r : lib_result A) : result A :=
  match r with
  | LibOk v => Ok v
  | LibJWTError => Raise JWTError
  | LibError => Raise OtherException
  end.

(** python-jose and the pydantic constructor are not part of the
    repository; the model is parametric in what they answer.
    [jwt_decode token pem] is [jwt.decode(token, pem, algorithms=["RS256"],
    options={"verify_aud": False})]: signature, structure and the library's
    own claim checks.  [JWTTokenData_init payload] is the
    constructor call of [JWTTokenData] on the unpacked payload, [None] when
    validation rejects it. *)
Class External := {
  PublicKey : Type;
  jwt_get_unverified_header : string → lib_result (list (string * json));
  jwk_construct : json → lib_result PublicKey;
  to_pem : PublicKey → lib_result string;
  jwt_decode : string → string → lib_result (list (string * json));
  JWTTokenData_init : list (string * json) → option JWTTokenData
}.

(** ** Python string methods used by the header parser *)

(** [str.isspace] on one character; header values are Latin-1 text. *)
Definition py_isspace (c : ascii) : bool :=
  let n := N_of_ascii c in
  ((9 <=? n) && (n <=? 13) || (28 <=? n) && (n <=? 32)
   || (n =? 133) || (n =? 160))%N.

(** [str.lower] on one Latin-1 character. *)
Definition py_lower_char (c : ascii) : ascii :=
  let n := N_of_ascii c in
  if ((65 <=? n) && (n <=? 90)
      || (192 <=? n) && (n <=? 222) && negb (n =? 215))%N
  then ascii_of_N (n + 32) else c.

Fixpoint py_lower (s : string) : string :=
  match s with
  | EmptyString => EmptyString
  | String c s' => String (py_lower_char c) (py_lower s')
  end.

(** [str.split()] scanning from left to right; [word] is the part read so
    far and not yet closed by whitespace. *)
Fixpoint split_from (word s : string) : list string :=
  match s with
  | EmptyString => if String.eqb word "" then [] else [word]
  | String c s' =>
      if py_isspace c then
        if String.eqb word "" then split_from "" s'
        else word :: split_from "" s'
      else split_from (word ++ String c "") s'
  end.

(** [s.split()]: the maximal whitespace-free parts of [s]. *)
Definition py_split (s : string) : list string := split_from "" s.

(** ** security.py *)

Section Security.
Context `{External}.

(** The [for] loop of [get_key_from_jwks]: [kid] is [header.get("kid")].
    [key.get] raises AttributeError on anything that is not a dict. *)
Fixpoint find_key (kid : json) (keys : list json) : result (option json) :=
  match keys with
  | [] => Ok None
  | key :: keys' =>
      match key with
      | JObj entries =>
          if py_eq (dict_get entries "kid" JNull) kid then Ok (Some key)
          else find_key kid keys'
      | _ => Raise OtherException
      end
  end.

(** What [for key in v] iterates over; [None] is a TypeError. *)
Definition py_iter (v : json) : option (list json) :=
  match v with
  | JArr items => Some items
  | JObj entries => Some (JStr <$> entries.*1)
  | JStr s => Some ((fun c => JStr (String c "")) <$> list_ascii_of_string s)
  | _ => None
  end.

(** [get_key_from_jwks(token, jwks)]: only [JWTError] is caught. *)
Definition get_key_from_jwks (token : string) (jwks : json) : result (option json) :=
  match jwt_get_unverified_header token with
  | LibJWTError => Ok None
  | LibError => Raise OtherException
  | LibOk header =>
      match jwks with
      | JObj entries =>
          match py_iter (dict_get entries "keys" (JArr [])) with
          | Some keys => find_key (dict_get header "kid" JNull) keys
          | None => Raise OtherException
          end
      | _ => Raise OtherException
      end
  end.

(** The three [except] clauses of [validate_token], in order. *)
Definition validate_token_handler (e : exn) : exn :=
  match e with
  | JWTError => AuthException_default "Invalid authentication token"
  | AuthException message http_status => AuthException message http_status
  | _ => AuthException_default "Error validating authentication token"
  end.

(** [not key] for the Optional dict returned by [get_key_from_jwks]. *)
Definition key_missing (key : option json) : bool :=
  match key with
  | None => true
  | Some k => negb (truthy k)
  end.

Definition enter_validate (w : World) : World :=
  {| _jwks_cache := _jwks_cache w;
     _jwks_last_updated := _jwks_last_updated w;
     http_requests := http_requests w;
     validate_calls := S (validate_calls w) |}.

(** [token_data.exp < time.time()] *)
Definition expired (token_data : JWTTokenData) (now : Q) : bool :=
  negb (Qle_bool now (inject_Z (exp token_data))).

(** [validate_token(token)].  [now_jwks] is the clock reading inside
    [get_jwks], [now_exp] the later one of the expiry check. *)
Definition validate_token (token : string) (net : http_outcome)
    (now_jwks now_exp : Q) : M JWTTokenData :=
  fun w =>
    let w := enter_validate w in
    if String.eqb token "" then
      raise (AuthException_default "Missing authentication token") w
    else
      try_except
        (let* jwks := get_jwks net now_jwks in
         let* key := lift (get_key_from_jwks token jwks) in
         match key with
         | Some key_dict =>
             if key_missing key then
               raise (AuthException_default "Invalid token signature: Key not found")
             else
               let* public_key := lift (of_lib (jwk_construct key_dict)) in
               let* pem := lift (of_lib (to_pem public_key)) in
               let* payload := lift (of_lib (jwt_decode token pem)) in
               let* token_data := lift (match JWTTokenData_init payload with
                                        | Some d => Ok d
                                        | None => Raise OtherException
                                        end) in
               if expired token_data now_exp then
                 raise (AuthException_default "Token has expired")
               else ret token_data
         | None =>
             raise (AuthException_default "Invalid token signature: Key not found")
         end)
        validate_token_handler w.

(** [get_token_data(authorization)]; [None] is an absent header. *)
Definition get_token_data (authorization : option string)
    (net : http_outcome) (now_jwks now_exp : Q) : M JWTTokenData :=
  match authorization with
  | None => raise (AuthException_default "Missing authorization header")
  | Some header =>
      if String.eqb header "" then
        raise (AuthException_default "Missing authorization header")
      else
        let parts := py_split header in
        if negb (Nat.eqb (length parts) 2)
           || negb (String.eqb (py_lower (nth 0 parts "")) "bearer")
        then raise (AuthException_default "Invalid authorization header format")
        else
          let token := nth 1 parts "" in
          validate_token token net now_jwks now_exp
  end.

(** The [role_checker] closure returned by [has_role(required_role)],
    applied to the claims its dependency delivered. *)
Definition has_role (required_role : string) (token_data : JWTTokenData)
    : result JWTTokenData :=
  if negb (TokenData.has_role token_data required_role) then
    Raise (AuthException "Access denied" FORBIDDEN)
  else Ok token_data.

(** The [role_checker] closure returned by [has_any_role(required_roles)]. *)
Definition has_any_role (required_roles : list string) (token_data : JWTTokenData)
    : result JWTTokenData :=
  if negb (TokenData.has_any_role token_data required_roles) then
    Raise (AuthException "Access denied" FORBIDDEN)
  else Ok token_data.

End Security.

(** * Vocabulary of the properties *)

(** ** The key-set cache *)

(** A well-formed, non-empty key-set document used in the examples. *)
Definition sample_jwks : json :=
  JObj [("keys", JArr [JObj [("kid", JStr "k1"); ("kty", JStr "RSA")]])].

(** The call answers from the cache: same data, no state change, no request. *)
Definition served_from_cache (net : http_outcome) (t : Q) (w : World) : Prop :=
  get_jwks net t w = (Ok (_jwks_cache w), w).

(** The call issues a request to the key-set endpoint. *)
Definition refresh_attempted (net : http_outcome) (t : Q) (w : World) : Prop :=
  http_requests (snd (get_jwks net t w)) = S (http_requests w).

Definition fetch_failure : exn :=
  AppException "Failed to fetch JWKS from authentication server" SERVICE_UNAVAILABLE.

(** The world after the first-ever fetch, at time 0, brought [sample_jwks]. *)
Definition world_fetched_at_0 : World :=
  snd (get_jwks (Response 200 (Some sample_jwks)) 0 initial_world).

(** The world after the first-ever fetch, at time 0, brought the empty
    JSON object. *)
Definition world_empty_document : World :=
  snd (get_jwks (Response 200 (Some (JObj []))) 0 initial_world).

(** ** Token validation *)

(** Everything in [validate_token] between the key-set lookup and the
    expiry check succeeds for [token] and yields the claims [token_data]:
    a non-empty key of [jwks] matches the token's key id, the public key is
    built from it, the signature and structure verify, the payload has the
    shape of the claims. *)
Definition verifies `{External} (token : string) (jwks : json)
    (token_data : JWTTokenData) : Prop :=
  ∃ key public_key pem payload,
    get_key_from_jwks token jwks = Ok (Some key) ∧
    truthy key = true ∧
    jwk_construct key = LibOk public_key ∧
    to_pem public_key = LibOk pem ∧
    jwt_decode token pem = LibOk payload ∧
    JWTTokenData_init payload = Some token_data.

(** Claims of a user holding the realm role ROLE_USER, expiring at [expiry]. *)
Definition sample_claims (expiry : Z) : JWTTokenData :=
  {| sub := "user-1"; exp := expiry; iat := 0; jti := "t-1";
     iss := "https://idp.example/realms/oil"; typ := "Bearer";
     azp := "oil-api"; sid := "s-1";
     realm_access := {[ "roles" := ["ROLE_USER"] ]};
     scope := "openid"; preferred_username := "user"; email := "user@example.org";
     aud := None; resource_access := None |}.

(** A stand-in for the libraries: every token carries the key id "k1",
    verifies against any key, and decodes to [sample_claims expiry]. *)
Definition sample_external (expiry : Z) : External :=
  {| PublicKey := json;
     jwt_get_unverified_header := fun _ =>
       LibOk [("alg", JStr "RS256"); ("kid", JStr "k1")];
     jwk_construct := fun key => LibOk key;
     to_pem := fun _ => LibOk "-----BEGIN PUBLIC KEY-----";
     jwt_decode := fun _ _ =>
       LibOk [("sub", JStr "user-1"); ("exp", JNum (inject_Z expiry))];
     JWTTokenData_init := fun _ => Some (sample_claims expiry) |}.

(** ** Authorization headers *)

Fixpoint string_forallb (f : ascii → bool) (s : string) : bool :=
  match s with
  | EmptyString => true
  | String c s' => f c && string_forallb f s'
  end.

(** Only whitespace. *)
Definition blank (s : string) : Prop := string_forallb py_isspace s = true.

(** A part: non-empty and free of whitespace. *)
Definition part (s : string) : Prop :=
  s ≠ "" ∧ string_forallb (fun c => negb (py_isspace c)) s = true.

(** What may follow a part: the end of the text or a whitespace character. *)
Definition part_end (rest : string) : Prop :=
  match rest with
  | EmptyString => True
  | String c _ => py_isspace c = true
  end.

(** [parts_of s ps]: the text [s] consists of exactly the parts [ps],
    separated (and possibly surrounded) by whitespace. *)
Inductive parts_of : string → list string → Prop :=
  | parts_none ws : blank ws → parts_of ws []
  | parts_next ws p rest ps :
      blank ws → part p → part_end rest → parts_of rest ps →
      parts_of (ws ++ p ++ rest) (p :: ps).

(** Exactly two whitespace-separated parts, the first one "bearer" up to
    case. *)
Definition bearer_header (header : string) : Prop :=
  ∃ scheme token,
    parts_of header [scheme; token] ∧ py_lower scheme = "bearer".

Definition missing_header : exn :=
  AuthException "Missing authorization header" UNAUTHORIZED.
Definition invalid_header_format : exn :=
  AuthException "Invalid authorization header format" UNAUTHORIZED.

(** ** Roles *)

(** The effective role set: the realm-level role list together with the
    role list of every entry of the resource-level mapping. *)
Definition in_effective_role_set (claims : JWTTokenData) (role : string) : Prop :=
  (∃ l, realm_access claims !! "roles" = Some l ∧ role ∈ l) ∨
  (∃ ra resource entry l,
     resource_access claims = Some ra ∧ ra !! resource = Some entry ∧
     entry !! "roles" = Some l ∧ role ∈ l).

Definition access_denied : exn := AuthException "Access denied" FORBIDDEN.

(** * The code around the claims *)

(** ** The role dependencies as FastAPI resolves them *)

Section Dependencies.
Context `{External}.

(** [Depends(has_role(required_role))]: the parameter
    [token_data = Depends(get_token_data)] is resolved first, then the
    closure runs on its value. *)
Definition has_role_dependency (required_role : string)
    (authorization : option string) (net : http_outcome)
    (now_jwks now_exp : Q) : M JWTTokenData :=
  let* token_data := get_token_data authorization net now_jwks now_exp in
  lift (has_role required_role token_data).

(** [Depends(has_any_role(required_roles))] *)
Definition has_any_role_dependency (required_roles : list string)
    (authorization : option string) (net : http_outcome)
    (now_jwks now_exp : Q) : M JWTTokenData :=
  let* token_data := get_token_data authorization net now_jwks now_exp in
  lift (has_any_role required_roles token_data).

End Dependencies.

(** The messages [validate_token] raises. *)
Definition validate_token_messages : list string :=
  ["Missing authentication token";
   "Invalid token signature: Key not found";
   "Token has expired";
   "Invalid authentication token";
   "Error validating authentication token"].

(** ** Error responses (app/models/error.py, app/core/error_handlers.py) *)

Module Errors.

(** [ErrorResponse] *)
Record ErrorResponse := mkErrorResponse {
  status : Z;
  message : string
}.

(** [str(exception)]: the message for the application's exceptions, whose
    constructor hands it to [Exception.__init__]; [foreign] is the text of
    any other exception. *)
Definition exn_str (foreign : string) (exception : exn) : string :=
  match exception with
  | AppException m _ | AuthException m _ => m
  | _ => foreign
  end.

(** [ErrorResponse.from_exception(exception, status)]: only the
    application's exceptions carry an [http_status] attribute. *)
Definition from_exception (foreign : string) (exception : exn)
    (default : HTTPStatus) : ErrorResponse :=
  let status :=
    match exception with
    | AppException _ s | AuthException _ s => s
    | _ => default
    end in
  {| status := status_value status; message := exn_str foreign exception |}.

(** The [Response] the handlers return; [content] before serialization. *)
Record JSONResponse := mkJSONResponse {
  content : ErrorResponse;
  status_code : Z;
  media_type : string
}.

(** [auth_exception_handler(request, exc)], logging left out. *)
Definition auth_exception_handler (exc_message : string)
    (exc_http_status : HTTPStatus) : JSONResponse :=
  let error_response :=
    {| status := status_value exc_http_status; message := exc_message |} in
  {| content := error_response;
     status_code := status_value exc_http_status;
     media_type := "application/json" |}.

(** [app_exception_handler(request, exc)], logging left out. *)
Definition app_exception_handler (exc_message : string)
    (exc_http_status : HTTPStatus) : JSONResponse :=
  let error_response :=
    {| status := status_value exc_http_status; message := exc_message |} in
  {| content := error_response;
     status_code := status_value exc_http_status;
     media_type := "application/json" |}.

(** [general_exception_handler(request, exc)], logging left out. *)
Definition general_exception_handler (foreign : string) (exc : exn)
    : JSONResponse :=
  let error_response := from_exception foreign exc INTERNAL_SERVER_ERROR in
  {| content := error_response;
     status_code := status error_response;
     media_type := "application/json" |}.

(** The handler [register_exception_handlers] makes the application pick:
    the one registered for the nearest class of the exception. *)
Definition handle_exception (foreign : string) (exc : exn) : JSONResponse :=
  match exc with
  | AuthException m s => auth_exception_handler m s
  | AppException m s => app_exception_handler m s
  | _ => general_exception_handler foreign exc
  end.

(** The response a request gets when its dependency raised, none when the
    dependency returned. *)
Definition failure_response {A} (foreign : string) (r : result A)
    : option JSONResponse :=
  match r with
  | Ok _ => None
  | Raise e => Some (handle_exception foreign e)
  end.

End Errors.

(** ** Token formatting for logs (app/utils/jwt_utils.py) *)

Module JwtUtils.

(** [s.split(sep)] for a one-character separator, scanning from left to
    right; [word] is the part read so far.  Empty parts are kept. *)
Fixpoint split_on (sep : ascii) (word s : string) : list string :=
  match s with
  | EmptyString => [word]
  | String c s' =>
      if Ascii.eqb c sep then word :: split_on sep "" s'
      else split_on sep (word ++ String c "") s'
  end.

(** [format_token_for_logging(token)] *)
Definition format_token_for_logging (token : string) : string :=
  if String.eqb token "" then "<empty token>"
  else
    let parts := split_on "." "" token in
    if negb (Nat.eqb (length parts) 3) then "<invalid token format>"
    else substring 0 10 token ++ "...".

(** The number of occurrences of [c] in [s]. *)
Fixpoint count_char (c : ascii) (s : string) : nat :=
  match s with
  | EmptyString => 0
  | String c' s' => (if Ascii.eqb c' c then 1 else 0) + count_char c s'
  end.

End JwtUtils.

(** ** Pre-signed uploads (app/infrastructure/storage/r2_client.py,
       app/services/oil_service.py) *)

Module R2.

(** The settings [R2StorageClient.__init__] copies and [get_upload_url]
    reads. *)
Record Settings := mkSettings {
  bucket_name : string;
  public_url_base : string;
  presigned_url_expiration : Z
}.

(** The [Params] dict handed to [generate_presigned_url]; the two optional
    entries are [None] when the key is not set. *)
Record PresignParams := mkPresignParams {
  Bucket : string;
  Key : string;
  ContentType : option string;
  Metadata : option (gmap string string)
}.

(** What boto3's [generate_presigned_url] does: return a URL or raise an
    exception whose [str] is [text]. *)
Inductive presign_outcome :=
  | Presigned (url : string)
  | PresignFailed (text : string).

(** What one execution of the body of [get_upload_url] meets: the value of
    [uuid.uuid4()] and the behaviour of the signing call. *)
Record Attempt := mkAttempt {
  fresh_uuid : string;
  generate_presigned_url : PresignParams → Z → presign_outcome
}.

(** The dict [get_upload_url] returns. *)
Record UploadData := mkUploadData {
  url : string;
  method : string;
  key : string;
  metadata : option (gmap string string);
  expires_in : Z;
  public_url : string
}.

(** The first [if] of [get_upload_url]: the storage key that is used. *)
Definition upload_key (uuid4 key_arg : string) : string :=
  if String.eqb key_arg "" then "uploads/" ++ uuid4
  else if negb (String.prefix "uploads/" key_arg) then "uploads/" ++ key_arg
  else key_arg.

(** [for key_name, value in metadata.items(): meta_dict[key_name] = value] *)
Definition copy_items (m : gmap string string) : gmap string string :=
  foldl (fun meta_dict kv => <[kv.1 := kv.2]> meta_dict) ∅ (map_to_list m).

(** The [params] dict as it stands before the signing call. *)
Definition upload_params (cfg : Settings) (final_key : string)
    (metadata_arg : option (gmap string string)) : PresignParams :=
  let content_type :=
    match metadata_arg with
    | Some m => if bool_decide (m ≠ ∅) then m !! "content-type" else None
    | None => None
    end in
  let meta :=
    match metadata_arg with
    | Some m =>
        if bool_decide (m ≠ ∅) then
          let meta_dict := copy_items m in
          if bool_decide (meta_dict ≠ ∅) then Some meta_dict else None
        else None
    | None => None
    end in
  {| Bucket := bucket_name cfg; Key := final_key;
     ContentType := content_type; Metadata := meta |}.

(** One execution of the body of [get_upload_url]: the returned dict, or
    the text of the exception the signing call raised. *)
Definition get_upload_url_once (cfg : Settings) (env : Attempt)
    (key_arg : string) (metadata_arg : option (gmap string string))
    : UploadData + string :=
  let final_key := upload_key (fresh_uuid env) key_arg in
  let params := upload_params cfg final_key metadata_arg in
  match generate_presigned_url env params (presigned_url_expiration cfg) with
  | Presigned u =>
      inl {| url := u; method := "PUT"; key := final_key;
             metadata := metadata_arg;
             expires_in := presigned_url_expiration cfg;
             public_url := public_url_base cfg ++ "/" ++ final_key |}
  | PresignFailed text => inr text
  end.

(** tenacity's [retry(stop=stop_after_attempt(3), reraise=True)], waits and
    logging left out: the body is run again after an exception, with the
    same arguments, until it returns or the last allowed attempt raised;
    that exception is then re-raised.  [run n] is the [n]-th execution,
    [more] the number of executions still allowed after it. *)
Fixpoint retry {A : Type} (more n : nat) (run : nat → A + string) : A + string :=
  match run n with
  | inl v => inl v
  | inr text =>
      match more with
      | O => inr text
      | S more' => retry more' (S n) run
      end
  end.

(** The decorated [R2StorageClient.get_upload_url]; [env n] is what the
    [n]-th execution of the body meets. *)
Definition get_upload_url (cfg : Settings) (env : nat → Attempt)
    (key_arg : string) (metadata_arg : option (gmap string string))
    : UploadData + string :=
  retry 2 0 (fun n => get_upload_url_once cfg (env n) key_arg metadata_arg).




End R2.

(** ** Vocabulary for the key lookup *)

Definition is_dict (v : json) : bool :=
  match v with JObj _ => true | _ => false end.

(** [key.get("kid") == kid] for a key that is a dict. *)
Definition kid_matches (kid key : json) : bool :=
  match key with
  | JObj entries => py_eq (dict_get entries "kid" JNull) kid
  | _ => false
  end.

(** A list element the loop of [get_key_from_jwks] steps over. *)
Definition skipped (kid key : json) : Prop :=
  is_dict key = true ∧ kid_matches kid key = false.

Definition key_not_found : exn :=
  AuthException "Invalid token signature: Key not found" UNAUTHORIZED.

(** ** Sample data for the properties of this part *)

(** The header [sample_external] reads off every token. *)
Definition sample_header : list (string * json) :=
  [("alg", JStr "RS256"); ("kid", JStr "k1")].

(** The one key of [sample_jwks]. *)
Definition sample_key : json :=
  JObj [("kid", JStr "k1"); ("kty", JStr "RSA")].

(** A key set without the key "k1". *)
Definition other_jwks : json :=
  JObj [("keys", JArr [JObj [("kid", JStr "k2"); ("kty", JStr "RSA")]])].

(** A world whose cache holds [document], fetched at time 0. *)
Definition world_caching (document : json) : World :=
  {| _jwks_cache := document; _jwks_last_updated := 0;
     http_requests := 1; validate_calls := 0 |}.

(** Libraries that read every header as [sample_header] and reject every
    signature. *)
Definition rejecting_external : External :=
  {| PublicKey := json;
     jwt_get_unverified_header := fun _ => LibOk sample_header;
     jwk_construct := fun key => LibOk key;
     to_pem := fun _ => LibOk "-----BEGIN PUBLIC KEY-----";
     jwt_decode := fun _ _ => LibJWTError;
     JWTTokenData_init := fun _ => None |}.

Definition sample_settings : R2.Settings :=
  {| R2.bucket_name := "oil-documents";
     R2.public_url_base := "https://files.example.org";
     R2.presigned_url_expiration := 20 |}.

(** An execution in which signing works, and one in which it fails. *)
Definition signing_attempt : R2.Attempt :=
  {| R2.fresh_uuid := "3f2b8c1e-0000-4000-8000-000000000001";
     R2.generate_presigned_url := fun params _ =>
       R2.Presigned ("https://r2.example.org/" ++ R2.Key params ++ "?X-Amz-Signature=ab12") |}.
Definition failing_attempt : R2.Attempt :=
  {| R2.fresh_uuid := "3f2b8c1e-0000-4000-8000-000000000002";
     R2.generate_presigned_url := fun _ _ =>
       R2.PresignFailed "Could not connect to the endpoint URL" |}.

(** Signing fails twice, then works. *)
Definition third_time_lucky (n : nat) : R2.Attempt :=
  match n with
  | 0 | 1 => failing_attempt
  | _ => signing_attempt
  end.

(** ** The library's own expiry check *)

(** [int(x)] of a JSON number: truncation towards zero. *)
Definition py_int (q : Q) : Z := Z.quot (Qnum q) (Z.pos (Qden q)).

(** Modelled from the spec: python-jose is not part of the repository; the
    spec (4.2 step 7 and the open question of 9) says that the verification
    of step 5 enforces expiry itself.  With the options [validate_token]
    passes, [jwt.decode] checks the "exp" claim of a payload whose signature
    verified: [int(exp) < now] raises ExpiredSignatureError, a [JWTError],
    where [now] is the library's clock in whole seconds.  A payload without
    a numeric "exp" is not touched by this check. *)
Definition jose_expired (now : Z) (payload : list (string * json)) : bool :=
  match dict_lookup "exp" payload with
  | Some (JNum e) => (py_int e <? now)%Z
  | _ => false
  end.

(** The libraries [base] with that check made explicit in [jwt_decode];
    the [jwt_decode] of [base] stands for the rest of [jwt.decode]. *)
Definition with_expiry_check (base : External) (now : Z) : External :=
  {| PublicKey := @PublicKey base;
     jwt_get_unverified_header := @jwt_get_unverified_header base;
     jwk_construct := @jwk_construct base;
     to_pem := @to_pem base;
     jwt_decode := fun token pem =>
       match @jwt_decode base token pem with
       | LibOk payload =>
           if jose_expired now payload then LibJWTError else LibOk payload
       | LibJWTError => LibJWTError
       | LibError => LibError
       end;
     JWTTokenData_init := @JWTTokenData_init base |}.

(** Apart from expiry, [token] passes every step of [validate_token] under
    [base]: a non-empty key of [jwks] matches, the public key is built, the
    signature and structure verify, and the payload, whose "exp" is the
    integer [exp token_data], has the shape of the claims [token_data]. *)
Definition verifies_apart_from_expiry (base : External) (token : string)
    (jwks : json) (token_data : JWTTokenData) : Prop :=
  ∃ key public_key pem payload,
    @get_key_from_jwks base token jwks = Ok (Some key) ∧
    truthy key = true ∧
    @jwk_construct base key = LibOk public_key ∧
    @to_pem base public_key = LibOk pem ∧
    @jwt_decode base token pem = LibOk payload ∧
    dict_lookup "exp" payload = Some (JNum (inject_Z (exp token_data))) ∧
    @JWTTokenData_init base payload = Some token_data.

(** * Properties *)

(** ** The key-set cache *)

Section Cache.
Implicit Types (w : World) (t : Q) (net : http_outcome).

Lemma ttl_exceeded_true t w :
  ttl_exceeded t w = true ↔ (_jwks_last_updated w + 3600 < t)%Q.
Proof.
  unfold ttl_exceeded, _jwks_cache_ttl.
  rewrite negb_true_iff, <- not_true_iff_false, Qle_bool_iff.
  split; intros Hlt.
  - apply Qnot_le_lt in Hlt. lra.
  - apply Qlt_not_le. lra.
Qed.

Lemma ttl_exceeded_false t w :
  ttl_exceeded t w = false ↔ (t <= _jwks_last_updated w + 3600)%Q.
Proof.
  unfold ttl_exceeded, _jwks_cache_ttl.
  rewrite negb_false_iff, Qle_bool_iff.
  split; intros Hle; lra.
Qed.

Lemma get_jwks_cached net t w :
  needs_refresh t w = false → get_jwks net t w = (Ok (_jwks_cache w), w).
Proof. intros Hn. unfold get_jwks. now rewrite Hn. Qed.

Lemma get_jwks_refreshed net t w document :
  needs_refresh t w = true → fetch_document net = Some document →
  get_jwks net t w =
    (Ok document,
     {| _jwks_cache := document; _jwks_last_updated := t;
        http_requests := S (http_requests w);
        validate_calls := validate_calls w |}).
Proof. intros Hn Hf. unfold get_jwks. now rewrite Hn, Hf. Qed.

Lemma get_jwks_failed net t w :
  needs_refresh t w = true → fetch_document net = None →
  get_jwks net t w =
    (Raise fetch_failure,
     {| _jwks_cache := _jwks_cache w;
        _jwks_last_updated := _jwks_last_updated w;
        http_requests := S (http_requests w);
        validate_calls := validate_calls w |}).
Proof. intros Hn Hf. unfold get_jwks. now rewrite Hn, Hf. Qed.

Lemma refresh_attempted_iff net t w :
  refresh_attempted net t w ↔ needs_refresh t w = true.
Proof.
  unfold refresh_attempted, get_jwks.
  destruct (needs_refresh t w); [destruct (fetch_document net)|]; simpl;
    split; try done; lia.
Qed.

(** Whatever a call returns is what it leaves in the cache slot. *)
Lemma get_jwks_returns_cache net t w ks w' :
  get_jwks net t w = (Ok ks, w') → _jwks_cache w' = ks.
Proof.
  unfold get_jwks.
  destruct (needs_refresh t w); [destruct (fetch_document net)|];
    intros [= <- <-]; reflexivity.
Qed.

Lemma get_jwks_requests net t w :
  (http_requests (snd (get_jwks net t w)) ≤ S (http_requests w))%nat.
Proof.
  unfold get_jwks.
  destruct (needs_refresh t w); [destruct (fetch_document net)|]; simpl; lia.
Qed.

(** C3, as stated, fails at the boundary instant: a non-empty key set
    fetched at time 0 is still served from the cache at time 3600, and no
    request is issued. *)
Lemma C3_boundary_instant_is_fresh :
  _jwks_last_updated world_fetched_at_0 = 0%Q ∧
  served_from_cache TransportError 3600 world_fetched_at_0 ∧
  ¬ refresh_attempted TransportError 3600 world_fetched_at_0.
Proof.
  split; [reflexivity|]. split; [reflexivity|].
  unfold refresh_attempted. vm_compute. discriminate.
Qed.

(** C3 (amended): a non-empty cache fetched at time T is served without a
    request at every time in [T, T+3600], the boundary included, and a
    refresh is attempted at every time strictly after T+3600. *)
Theorem C3_cache_staleness_boundary net t w :
  truthy (_jwks_cache w) = true →
  ((_jwks_last_updated w <= t)%Q → (t <= _jwks_last_updated w + 3600)%Q →
     served_from_cache net t w ∧ ¬ refresh_attempted net t w) ∧
  ((_jwks_last_updated w + 3600 < t)%Q → refresh_attempted net t w).
Proof.
  intros Hcache. split.
  - intros _ Hle.
    assert (Hn : needs_refresh t w = false).
    { unfold needs_refresh. rewrite Hcache. simpl.
      now apply ttl_exceeded_false. }
    split; [now apply get_jwks_cached|].
    rewrite refresh_attempted_iff, Hn. discriminate.
  - intros Hlt. apply refresh_attempted_iff. unfold needs_refresh.
    apply orb_true_iff. right. now apply ttl_exceeded_true.
Qed.

Lemma C3_cache_staleness_boundary_witness :
  truthy (_jwks_cache world_fetched_at_0) = true ∧
  served_from_cache TransportError 3600 world_fetched_at_0 ∧
  refresh_attempted TransportError 3601 world_fetched_at_0.
Proof.
  split; [reflexivity|]. split.
  - destruct (C3_cache_staleness_boundary TransportError 3600
                world_fetched_at_0 eq_refl) as [Hfresh _].
    apply Hfresh; vm_compute; discriminate.
  - destruct (C3_cache_staleness_boundary TransportError 3601
                world_fetched_at_0 eq_refl) as [_ Hstale].
    apply Hstale. reflexivity.
Defined.

(** C4, as stated, fails when the first fetch brings the empty JSON
    object: two calls one second apart, both fetches succeed, yet the calls
    return different data and two requests are issued. *)
Lemma C4_two_fetches_within_ttl :
  let '(r1, w1) := get_jwks (Response 200 (Some (JObj []))) 0 initial_world in
  let '(r2, w2) := get_jwks (Response 200 (Some sample_jwks)) 1 w1 in
  (_jwks_last_updated w1 <= 1)%Q ∧ (1 < _jwks_last_updated w1 + 3600)%Q ∧
  r1 = Ok (JObj []) ∧ r2 = Ok sample_jwks ∧ r1 ≠ r2 ∧
  http_requests w2 = (http_requests initial_world + 2)%nat.
Proof. vm_compute. repeat split; discriminate. Qed.

(** C4 (amended): when the first call returns a non-empty key set, a second
    call no later than 3600 seconds after that key set was fetched returns
    the same data, leaves the state as it is, and the two calls together
    issue at most one request. *)
Theorem C4_get_jwks_idempotent net1 net2 t1 t2 w ks w1 :
  get_jwks net1 t1 w = (Ok ks, w1) →
  truthy ks = true →
  (t2 <= _jwks_last_updated w1 + 3600)%Q →
  get_jwks net2 t2 w1 = (Ok ks, w1) ∧
  (http_requests (snd (get_jwks net2 t2 w1)) ≤ http_requests w + 1)%nat.
Proof.
  intros H1 Hks Hwin.
  pose proof (get_jwks_returns_cache _ _ _ _ _ H1) as Hc.
  assert (H2 : get_jwks net2 t2 w1 = (Ok ks, w1)).
  { rewrite <- Hc at 1. apply get_jwks_cached. unfold needs_refresh.
    rewrite Hc, Hks. simpl. now apply ttl_exceeded_false. }
  split; [exact H2|]. rewrite H2. simpl.
  pose proof (get_jwks_requests net1 t1 w) as Hr. rewrite H1 in Hr.
  simpl in Hr. lia.
Qed.

Lemma C4_get_jwks_idempotent_witness :
  get_jwks TransportError 1800 world_fetched_at_0
    = (Ok sample_jwks, world_fetched_at_0) ∧
  (http_requests (snd (get_jwks TransportError 1800 world_fetched_at_0))
     ≤ http_requests initial_world + 1)%nat.
Proof.
  apply (C4_get_jwks_idempotent (Response 200 (Some sample_jwks))
           TransportError 0 1800 initial_world sample_jwks world_fetched_at_0).
  - reflexivity.
  - reflexivity.
  - vm_compute. discriminate.
Defined.

(** C5: when the fetch inside [get_jwks] fails, the call raises the
    service-unavailable [AppException] and both the cache slot and its
    timestamp are exactly what they were; with no cache yet (an empty
    slot) the fetch is always attempted, so the failure always surfaces. *)
Theorem C5_failed_fetch_keeps_cache net t w :
  fetch_document net = None →
  (needs_refresh t w = true →
     fst (get_jwks net t w) = Raise fetch_failure ∧
     _jwks_cache (snd (get_jwks net t w)) = _jwks_cache w ∧
     _jwks_last_updated (snd (get_jwks net t w)) = _jwks_last_updated w) ∧
  (truthy (_jwks_cache w) = false →
     fst (get_jwks net t w) = Raise fetch_failure).
Proof.
  intros Hf. split.
  - intros Hn. now rewrite (get_jwks_failed _ _ _ Hn Hf).
  - intros Hc. rewrite get_jwks_failed; [reflexivity| |exact Hf].
    unfold needs_refresh. now rewrite Hc.
Qed.

(** A stale but non-empty cache at time 4000 and an endpoint answering 500. *)
Lemma C5_failed_fetch_keeps_cache_witness :
  fetch_document (Response 500 None) = None ∧
  needs_refresh 4000 world_fetched_at_0 = true ∧
  fst (get_jwks (Response 500 None) 4000 world_fetched_at_0)
    = Raise fetch_failure ∧
  _jwks_cache (snd (get_jwks (Response 500 None) 4000 world_fetched_at_0))
    = sample_jwks ∧
  _jwks_last_updated (snd (get_jwks (Response 500 None) 4000 world_fetched_at_0))
    = 0%Q.
Proof.
  split; [reflexivity|]. split; [reflexivity|].
  apply (C5_failed_fetch_keeps_cache (Response 500 None) 4000 world_fetched_at_0);
    reflexivity.
Defined.

(** C10: when a fetch succeeds with the empty JSON object, the call returns
    it and stamps the cache, but every later call, at any time and so also
    inside the time-to-live window, issues a request again. *)
Theorem C10_empty_document_refetched net t w :
  needs_refresh t w = true →
  fetch_document net = Some (JObj []) →
  ∃ w1, get_jwks net t w = (Ok (JObj []), w1) ∧
        _jwks_last_updated w1 = t ∧
        ∀ net2 t2, refresh_attempted net2 t2 w1.
Proof.
  intros Hn Hf. eexists. split; [now apply get_jwks_refreshed|].
  split; [reflexivity|]. intros net2 t2.
  apply refresh_attempted_iff. reflexivity.
Qed.

Lemma C10_empty_document_refetched_witness :
  ∃ w1, get_jwks (Response 200 (Some (JObj []))) 0 initial_world
          = (Ok (JObj []), w1) ∧
        _jwks_last_updated w1 = 0%Q ∧
        ∀ net2 t2, refresh_attempted net2 t2 w1.
Proof.
  apply (C10_empty_document_refetched (Response 200 (Some (JObj []))) 0 initial_world);
    reflexivity.
Defined.

End Cache.

(** ** Token validation *)

Section Validation.
Context `{External}.
Implicit Types (w : World) (token : string) (net : http_outcome).

Lemma eqb_empty_false (s : string) : s ≠ "" → String.eqb s "" = false.
Proof. intros Hs. now apply String.eqb_neq. Qed.

Lemma find_key_raises kid keys e :
  find_key kid keys = Raise e → e = OtherException.
Proof.
  induction keys as [|key keys IH]; simpl; [discriminate|].
  destruct key; try (now intros [= <-]).
  destruct (py_eq _ _); [discriminate|exact IH].
Qed.

(** [get_key_from_jwks] lets no [JWTError] and no application exception
    out. *)
Lemma get_key_from_jwks_raises token jwks e :
  get_key_from_jwks token jwks = Raise e → e = OtherException.
Proof.
  unfold get_key_from_jwks.
  destruct (jwt_get_unverified_header token); try discriminate;
    [|now intros [= <-]].
  destruct jwks; try (now intros [= <-]).
  destruct (py_iter _); [apply find_key_raises|now intros [= <-]].
Qed.

Lemma get_jwks_validate_calls net t w :
  validate_calls (snd (get_jwks net t w)) = validate_calls w.
Proof.
  unfold get_jwks.
  destruct (needs_refresh t w); [destruct (fetch_document net)|]; reflexivity.
Qed.

Lemma get_jwks_raises net t w e w' :
  get_jwks net t w = (Raise e, w') → e = fetch_failure.
Proof.
  unfold get_jwks.
  destruct (needs_refresh t w); [destruct (fetch_document net)|];
    now intros [= <- <-].
Qed.

(** The part of [validate_token] that follows a successful [get_jwks], for
    a token that verifies. *)
Lemma validate_token_verified token net t1 t2 w jwks w1 token_data :
  token ≠ "" →
  get_jwks net t1 (enter_validate w) = (Ok jwks, w1) →
  verifies token jwks token_data →
  validate_token token net t1 t2 w =
    if expired token_data t2
    then (Raise (AuthException "Token has expired" UNAUTHORIZED), w1)
    else (Ok token_data, w1).
Proof.
  intros Htok Hjwks (key & public_key & pem & payload &
                     Hkey & Htruthy & Hconstruct & Hpem & Hdecode & Hinit).
  unfold validate_token. rewrite (eqb_empty_false _ Htok).
  unfold try_except, bind, lift, raise, ret.
  rewrite Hjwks, Hkey. unfold key_missing. rewrite Htruthy. simpl.
  rewrite Hconstruct. simpl. rewrite Hpem. simpl. rewrite Hdecode. simpl.
  rewrite Hinit. now destruct (expired token_data t2).
Qed.

Lemma expired_true token_data (now : Q) :
  expired token_data now = true ↔ (inject_Z (exp token_data) < now)%Q.
Proof.
  unfold expired.
  rewrite negb_true_iff, <- not_true_iff_false, Qle_bool_iff.
  split; [apply Qnot_le_lt|apply Qlt_not_le].
Qed.

Lemma expired_false token_data (now : Q) :
  expired token_data now = false ↔ (now <= inject_Z (exp token_data))%Q.
Proof. unfold expired. now rewrite negb_false_iff, Qle_bool_iff. Qed.

(** C1 (what the code does): on the first-ever fetch, with an empty cache
    slot and a failing endpoint, [get_jwks] raises the service-unavailable
    [AppException], but [validate_token] turns it, for every non-empty
    token, into the unauthorized [AuthException] of its catch-all clause. *)
Theorem C1_outage_reported_as_unauthorized token net t1 t2 w :
  token ≠ "" →
  truthy (_jwks_cache w) = false →
  fetch_document net = None →
  fst (get_jwks net t1 w)
    = Raise (AppException "Failed to fetch JWKS from authentication server"
                          SERVICE_UNAVAILABLE) ∧
  fst (validate_token token net t1 t2 w)
    = Raise (AuthException "Error validating authentication token"
                           UNAUTHORIZED).
Proof.
  intros Htok Hcache Hfetch.
  assert (Hn : ∀ w', _jwks_cache w' = _jwks_cache w → needs_refresh t1 w' = true).
  { intros w' Hw'. unfold needs_refresh. now rewrite Hw', Hcache. }
  split.
  - now rewrite get_jwks_failed by auto.
  - unfold validate_token. rewrite (eqb_empty_false _ Htok).
    unfold try_except, bind.
    now rewrite get_jwks_failed by auto.
Qed.

(** The same exception is what a token whose payload lacks a required
    field gets: the two failures cannot be told apart by the caller. *)
Lemma claims_shape_failure_error token net t1 t2 w jwks w1
    key public_key pem payload :
  token ≠ "" →
  get_jwks net t1 (enter_validate w) = (Ok jwks, w1) →
  get_key_from_jwks token jwks = Ok (Some key) → truthy key = true →
  jwk_construct key = LibOk public_key → to_pem public_key = LibOk pem →
  jwt_decode token pem = LibOk payload → JWTTokenData_init payload = None →
  fst (validate_token token net t1 t2 w)
    = Raise (AuthException "Error validating authentication token"
                           UNAUTHORIZED).
Proof.
  intros Htok Hjwks Hkey Htruthy Hconstruct Hpem Hdecode Hinit.
  unfold validate_token. rewrite (eqb_empty_false _ Htok).
  unfold try_except, bind, lift, raise, ret.
  rewrite Hjwks, Hkey. unfold key_missing. rewrite Htruthy. simpl.
  rewrite Hconstruct. simpl. rewrite Hpem. simpl. rewrite Hdecode. simpl.
  now rewrite Hinit.
Qed.

(** The expiry check of [validate_token] itself, for a token the library
    has verified and decoded: it raises "Token has expired" when the expiry
    is strictly before the clock reading, and returns the claims when the
    expiry is that reading or later. *)
Lemma explicit_expiry_check token net t1 t2 w jwks w1 token_data :
  token ≠ "" →
  get_jwks net t1 (enter_validate w) = (Ok jwks, w1) →
  verifies token jwks token_data →
  ((inject_Z (exp token_data) < t2)%Q →
     validate_token token net t1 t2 w
       = (Raise (AuthException "Token has expired" UNAUTHORIZED), w1)) ∧
  ((t2 <= inject_Z (exp token_data))%Q →
     validate_token token net t1 t2 w = (Ok token_data, w1)).
Proof.
  intros Htok Hjwks Hver.
  rewrite (validate_token_verified _ _ _ t2 _ _ _ _ Htok Hjwks Hver).
  split; intros Hexp.
  - apply expired_true in Hexp. now rewrite Hexp.
  - apply expired_false in Hexp. now rewrite Hexp.
Qed.

End Validation.

(** The endpoint answers HTTP 500 on the first-ever fetch. *)
Lemma C1_outage_reported_as_unauthorized_witness :
  fst (get_jwks (Response 500 None) 100 initial_world)
    = Raise (AppException "Failed to fetch JWKS from authentication server"
                          SERVICE_UNAVAILABLE) ∧
  fst (@validate_token (sample_external 1000) "abc.def.ghi" (Response 500 None)
         100 100 initial_world)
    = Raise (AuthException "Error validating authentication token" UNAUTHORIZED).
Proof.
  apply (@C1_outage_reported_as_unauthorized (sample_external 1000)
           "abc.def.ghi" (Response 500 None) 100 100 initial_world).
  - discriminate.
  - reflexivity.
  - reflexivity.
Defined.

(** ** Expired tokens *)

Lemma py_int_inject_Z (z : Z) : py_int (inject_Z z) = z.
Proof. unfold py_int. simpl. apply Z.quot_1_r. Qed.

Lemma sample_verifies_apart_from_expiry (expiry : Z) (token : string) :
  verifies_apart_from_expiry (sample_external expiry) token sample_jwks
    (sample_claims expiry).
Proof.
  exists (JObj [("kid", JStr "k1"); ("kty", JStr "RSA")]),
         (JObj [("kid", JStr "k1"); ("kty", JStr "RSA")]),
         "-----BEGIN PUBLIC KEY-----",
         [("sub", JStr "user-1"); ("exp", JNum (inject_Z expiry))].
  repeat split; reflexivity.
Defined.

(** C2 (what the code does): for a token that verifies against the matched
    key, with the expiry check of the library in place, [validate_token]
    answers an expiry before the library's clock with "Invalid
    authentication token", through its [JWTError] clause, and not with
    "Token has expired"; its own check only decides for an expiry that is
    not before the library's clock: "Token has expired" when the expiry is
    strictly before the later clock reading, the claims otherwise. *)
Theorem C2_expired_token_reported_invalid (base : External) (token : string)
    (net : http_outcome) (t1 t2 : Q) (now_decode : Z) (w : World)
    (jwks : json) (w1 : World) (token_data : JWTTokenData) :
  token ≠ "" →
  get_jwks net t1 (enter_validate w) = (Ok jwks, w1) →
  verifies_apart_from_expiry base token jwks token_data →
  ((exp token_data < now_decode)%Z →
     @validate_token (with_expiry_check base now_decode) token net t1 t2 w
       = (Raise (AuthException "Invalid authentication token" UNAUTHORIZED), w1)) ∧
  ((now_decode ≤ exp token_data)%Z → (inject_Z (exp token_data) < t2)%Q →
     @validate_token (with_expiry_check base now_decode) token net t1 t2 w
       = (Raise (AuthException "Token has expired" UNAUTHORIZED), w1)) ∧
  ((now_decode ≤ exp token_data)%Z → (t2 <= inject_Z (exp token_data))%Q →
     @validate_token (with_expiry_check base now_decode) token net t1 t2 w
       = (Ok token_data, w1)).
Proof.
  intros Htok Hjwks (key & public_key & pem & payload &
                     Hkey & Htruthy & Hconstruct & Hpem & Hdecode & Hexp & Hinit).
  assert (Hcheck : jose_expired now_decode payload
                   = (exp token_data <? now_decode)%Z).
  { unfold jose_expired. now rewrite Hexp, py_int_inject_Z. }
  split.
  - intros Hlt%Z.ltb_lt.
    assert (Hrefused : @jwt_decode (with_expiry_check base now_decode) token pem
                       = LibJWTError).
    { simpl. now rewrite Hdecode, Hcheck, Hlt. }
    unfold validate_token. rewrite (eqb_empty_false _ Htok).
    unfold try_except, bind, lift, raise, ret. rewrite Hjwks.
    change (@get_key_from_jwks (with_expiry_check base now_decode) token jwks)
      with (@get_key_from_jwks base token jwks).
    rewrite Hkey. unfold key_missing. rewrite Htruthy. simpl negb. cbv iota.
    change (@jwk_construct (with_expiry_check base now_decode) key)
      with (@jwk_construct base key).
    rewrite Hconstruct. cbv beta iota delta [of_lib].
    change (@to_pem (with_expiry_check base now_decode) public_key)
      with (@to_pem base public_key).
    rewrite Hpem. cbv beta iota. now rewrite Hrefused.
  - assert (Hpass : (now_decode ≤ exp token_data)%Z →
                    @verifies (with_expiry_check base now_decode)
                      token jwks token_data).
    { intros Hle%Z.ltb_ge. exists key, public_key, pem, payload.
      repeat split; try assumption.
      simpl. now rewrite Hdecode, Hcheck, Hle. }
    split; intros Hle Ht2;
      now apply (@explicit_expiry_check (with_expiry_check base now_decode)
                   token net t1 t2 w jwks w1 token_data Htok Hjwks (Hpass Hle)).
Qed.

(** A token that expired at 1000, validated at 2000 against a fresh cache. *)
Lemma C2_expired_token_reported_invalid_witness :
  @validate_token (with_expiry_check (sample_external 1000) 2000)
     "abc.def.ghi" TransportError 2000 2000 world_fetched_at_0
    = (Raise (AuthException "Invalid authentication token" UNAUTHORIZED),
       enter_validate world_fetched_at_0) ∧
  (inject_Z (exp (sample_claims 1000)) <= 2000)%Q.
Proof.
  split; [|vm_compute; discriminate].
  refine (proj1 (C2_expired_token_reported_invalid (sample_external 1000)
           "abc.def.ghi" TransportError 2000 2000 2000 world_fetched_at_0
           sample_jwks (enter_validate world_fetched_at_0)
           (sample_claims 1000) _ _ _) _).
  - discriminate.
  - reflexivity.
  - apply sample_verifies_apart_from_expiry.
  - reflexivity.
Defined.

(** ** Header parsing *)

Section Split.
Implicit Types (s w p ws rest : string) (c : ascii) (ps : list string).

Lemma append_nil_l s : "" ++ s = s.
Proof. reflexivity. Qed.

Lemma append_cons c s1 s2 : String c s1 ++ s2 = String c (s1 ++ s2).
Proof. reflexivity. Qed.

Lemma append_nil_r s : s ++ "" = s.
Proof.
  induction s as [|c s IH]; [reflexivity|]. now rewrite append_cons, IH.
Qed.

Lemma append_assoc s1 s2 s3 : (s1 ++ s2) ++ s3 = s1 ++ s2 ++ s3.
Proof.
  induction s1 as [|c s1 IH]; [reflexivity|]. now rewrite !append_cons, IH.
Qed.

Lemma append_not_empty w c : w ++ String c "" ≠ "".
Proof. destruct w; discriminate. Qed.

Lemma split_from_blank ws s :
  blank ws → split_from "" (ws ++ s) = split_from "" s.
Proof.
  unfold blank. induction ws as [|c ws IH]; simpl; [reflexivity|].
  intros [Hc Hws]%andb_true_iff. rewrite ?append_cons. simpl.
  rewrite Hc. now apply IH.
Qed.

Lemma split_from_part p :
  string_forallb (fun c => negb (py_isspace c)) p = true →
  ∀ w s, split_from w (p ++ s) = split_from (w ++ p) s.
Proof.
  induction p as [|c p IH]; simpl; intros Hp w s.
  - now rewrite append_nil_r, ?append_nil_l.
  - apply andb_true_iff in Hp as [Hc Hp]. apply negb_true_iff in Hc.
    rewrite ?append_cons. simpl.
    now rewrite Hc, (IH Hp), append_assoc, ?append_cons, ?append_nil_l.
Qed.

Lemma split_from_end w rest :
  w ≠ "" → part_end rest → split_from w rest = w :: split_from "" rest.
Proof.
  intros Hw Hrest. apply String.eqb_neq in Hw.
  destruct rest as [|c rest]; simpl in *; rewrite Hw; [reflexivity|].
  now rewrite Hrest.
Qed.

(** Every decomposition into parts is the one [split] computes. *)
Lemma py_split_complete s ps : parts_of s ps → py_split s = ps.
Proof.
  unfold py_split. induction 1 as [ws Hws|ws p rest ps Hws [Hne Hp] Hrest _ IH].
  - rewrite <- (append_nil_r ws). now rewrite split_from_blank.
  - rewrite split_from_blank by assumption.
    rewrite split_from_part by assumption. rewrite ?append_nil_l.
    rewrite split_from_end by assumption. now rewrite IH.
Qed.

Lemma parts_of_space c s ps :
  py_isspace c = true → parts_of s ps → parts_of (String c s) ps.
Proof.
  intros Hc Hparts. destruct Hparts as [ws Hws|ws p rest ps Hws Hp Hrest Hps].
  - apply parts_none. unfold blank in *. simpl. now rewrite Hc.
  - change (String c (ws ++ p ++ rest)) with (String c ws ++ p ++ rest).
    apply (parts_next (String c ws)); try assumption.
    unfold blank in *. simpl. now rewrite Hc.
Qed.

(** What [split_from] computes is a decomposition into parts; with a
    part under way, the text first completes that part. *)
Lemma split_from_sound s :
  parts_of s (split_from "" s) ∧
  ∀ w, w ≠ "" →
    ∃ p rest,
      s = p ++ rest ∧
      string_forallb (fun c => negb (py_isspace c)) p = true ∧
      part_end rest ∧
      split_from w s = (w ++ p) :: split_from "" rest ∧
      parts_of rest (split_from "" rest).
Proof.
  induction s as [|c s [IH1 IH2]].
  - split; [now apply parts_none|].
    intros w Hw. exists "", "". simpl.
    apply String.eqb_neq in Hw. rewrite Hw, (append_nil_r w).
    split; [reflexivity|]. split; [reflexivity|]. split; [exact I|].
    split; [reflexivity|now apply parts_none].
  - destruct (py_isspace c) eqn:Hc.
    + assert (Hparts : parts_of (String c s) (split_from "" (String c s))).
      { simpl. rewrite Hc. now apply parts_of_space. }
      split; [exact Hparts|].
      intros w Hw. exists "", (String c s).
      apply String.eqb_neq in Hw.
      rewrite (append_nil_r w), ?append_nil_l.
      split; [reflexivity|]. split; [reflexivity|]. split; [exact Hc|].
      split; [|exact Hparts]. simpl. now rewrite Hc, Hw.
    + split.
      * simpl. rewrite Hc.
        destruct (IH2 (String c "")) as (p & rest & -> & Hp & Hrest & Heq & Hps);
          [discriminate|].
        rewrite ?append_nil_l, Heq, ?append_cons, ?append_nil_l.
        change (String c (p ++ rest)) with ("" ++ String c p ++ rest).
        apply (parts_next "" (String c p) rest); try assumption.
        -- reflexivity.
        -- split; [discriminate|]. simpl. now rewrite Hc.
      * intros w Hw.
        destruct (IH2 (w ++ String c "")) as (p & rest & -> & Hp & Hrest & Heq & Hps);
          [apply append_not_empty|].
        exists (String c p), rest. simpl.
        rewrite Hc, Heq, append_assoc, ?append_cons, ?append_nil_l.
        repeat split; assumption.
Qed.

Lemma py_split_sound s : parts_of s (py_split s).
Proof. apply split_from_sound. Qed.

(** [s.split()] returns [ps] exactly when [s] consists of the parts [ps]. *)
Lemma py_split_parts s ps : py_split s = ps ↔ parts_of s ps.
Proof.
  split; [intros <-; apply py_split_sound|apply py_split_complete].
Qed.

(** The test of [get_token_data] accepts exactly the bearer headers. *)
Lemma header_test_spec (header : string) :
  negb (Nat.eqb (length (py_split header)) 2)
  || negb (String.eqb (py_lower (nth 0 (py_split header) "")) "bearer") = false
  ↔ bearer_header header.
Proof.
  rewrite orb_false_iff, !negb_false_iff, Nat.eqb_eq, String.eqb_eq.
  split.
  - intros [Hlen Hlow].
    pose proof (py_split_sound header) as Hparts.
    destruct (py_split header) as [|scheme [|token [|]]]; try discriminate.
    now exists scheme, token.
  - intros (scheme & token & Hparts & Hlow).
    apply py_split_complete in Hparts. now rewrite Hparts.
Qed.

End Split.

Section Header.
Context `{External}.

(** Every entry into [validate_token] is counted, whatever it returns. *)
Lemma validate_token_counted token net t1 t2 w :
  validate_calls (snd (validate_token token net t1 t2 w))
    = S (validate_calls w).
Proof.
  unfold validate_token. destruct (String.eqb token ""); [reflexivity|].
  unfold try_except, bind, lift, raise, ret.
  pose proof (get_jwks_validate_calls net t1 (enter_validate w)) as Hc.
  destruct (get_jwks net t1 (enter_validate w)) as [[jwks|e] w1];
    simpl in Hc; [|exact Hc].
  destruct (get_key_from_jwks token jwks) as [[key|]|e]; try exact Hc.
  destruct (key_missing (Some key)); [exact Hc|].
  destruct (jwk_construct key) as [public_key| |]; try exact Hc. simpl.
  destruct (to_pem public_key) as [pem| |]; try exact Hc. simpl.
  destruct (jwt_decode token pem) as [payload| |]; try exact Hc. simpl.
  destruct (JWTTokenData_init payload) as [token_data|]; try exact Hc.
  destruct (expired token_data t2); exact Hc.
Qed.

(** [validate_token] never raises the malformed-header failure. *)
Lemma validate_token_not_header_failure token net t1 t2 w :
  fst (validate_token token net t1 t2 w) ≠ Raise invalid_header_format.
Proof.
  unfold validate_token. destruct (String.eqb token ""); [discriminate|].
  unfold try_except, bind, lift, raise, ret.
  destruct (get_jwks net t1 (enter_validate w)) as [[jwks|e] w1] eqn:Hjwks.
  2:{ apply get_jwks_raises in Hjwks as ->. discriminate. }
  destruct (get_key_from_jwks token jwks) as [[key|]|e] eqn:Hkey.
  2:{ discriminate. }
  2:{ apply get_key_from_jwks_raises in Hkey as ->. discriminate. }
  destruct (key_missing (Some key)); [discriminate|].
  destruct (jwk_construct key) as [public_key| |]; try discriminate. simpl.
  destruct (to_pem public_key) as [pem| |]; try discriminate. simpl.
  destruct (jwt_decode token pem) as [payload| |]; try discriminate. simpl.
  destruct (JWTTokenData_init payload) as [token_data|]; try discriminate.
  destruct (expired token_data t2); discriminate.
Qed.

(** C8 (amended): for every non-empty header value that is not a bearer
    header, [get_token_data] raises "Invalid authorization header format"
    and leaves the world as it is, so [validate_token] is not entered;
    this failure differs from the missing-header failure and from every
    failure of [validate_token]. *)
Theorem C8_malformed_header_rejected (header : string) net t1 t2 w :
  header ≠ "" →
  ¬ bearer_header header →
  get_token_data (Some header) net t1 t2 w = (Raise invalid_header_format, w) ∧
  validate_calls (snd (get_token_data (Some header) net t1 t2 w))
    = validate_calls w ∧
  invalid_header_format ≠ missing_header ∧
  ∀ token net' t1' t2' w',
    fst (validate_token token net' t1' t2' w') ≠ Raise invalid_header_format.
Proof.
  intros Hne Hbad.
  assert (Hget : get_token_data (Some header) net t1 t2 w
                 = (Raise invalid_header_format, w)).
  { unfold get_token_data. rewrite (eqb_empty_false _ Hne).
    destruct (negb _ || negb _) eqn:Htest; [reflexivity|].
    now apply header_test_spec in Htest. }
  split; [exact Hget|]. split; [now rewrite Hget|].
  split; [discriminate|]. intros. apply validate_token_not_header_failure.
Qed.

End Header.

Lemma not_bearer_header (header : string) :
  (negb (Nat.eqb (length (py_split header)) 2)
   || negb (String.eqb (py_lower (nth 0 (py_split header) "")) "bearer")) = true →
  ¬ bearer_header header.
Proof.
  intros Htest Hb. apply header_test_spec in Hb. congruence.
Defined.

(** C8, as stated, fails for the empty header value: it is not a bearer
    header, yet it is reported as a missing header, not as a malformed one. *)
Lemma C8_empty_header_reported_missing :
  ¬ bearer_header "" ∧
  @get_token_data (sample_external 1000) (Some "") TransportError 0 0 initial_world
    = (Raise missing_header, initial_world) ∧
  missing_header ≠ invalid_header_format.
Proof.
  split; [now apply not_bearer_header|]. split; [reflexivity|discriminate].
Qed.

(** The header "Token abc.def.ghi" of the spec's scenario. *)
Lemma C8_malformed_header_rejected_witness :
  @get_token_data (sample_external 1000) (Some "Token abc.def.ghi")
     TransportError 0 0 initial_world
    = (Raise invalid_header_format, initial_world) ∧
  validate_calls (snd (@get_token_data (sample_external 1000)
                         (Some "Token abc.def.ghi") TransportError 0 0 initial_world))
    = validate_calls initial_world.
Proof.
  destruct (@C8_malformed_header_rejected (sample_external 1000)
              "Token abc.def.ghi" TransportError 0 0 initial_world)
    as (Hget & Hcalls & _).
  - discriminate.
  - now apply not_bearer_header.
  - split; [exact Hget|exact Hcalls].
Defined.

(** ** Roles *)

Section Roles.
Implicit Types (claims : JWTTokenData) (role : string) (l : list string).

Lemma py_in_true role l : TokenData.py_in role l = true ↔ role ∈ l.
Proof.
  unfold TokenData.py_in. rewrite existsb_exists, list_elem_of_In.
  split.
  - now intros (x & Hx & ->%String.eqb_eq).
  - intros Hin. exists role. split; [exact Hin|apply String.eqb_refl].
Qed.

(** Membership after the [for] loop over the resource entries. *)
Lemma elem_of_extend_all role (entries : list (gmap string (list string))) :
  ∀ init,
    role ∈ foldl TokenData.extend_with init entries ↔
    role ∈ init ∨
    ∃ entry l, entry ∈ entries ∧ entry !! "roles" = Some l ∧ role ∈ l.
Proof.
  induction entries as [|entry entries IH]; intros init; simpl.
  - split; [now left|]. intros [Hin|(entry & l & Hentry & _)]; [exact Hin|].
    now apply elem_of_nil in Hentry.
  - rewrite IH. unfold TokenData.extend_with at 1. split.
    + intros [Hin|(e & l & He & Hl & Hrole)].
      * destruct (entry !! "roles") as [l|] eqn:Hl; [|now left].
        apply elem_of_app in Hin as [Hin|Hin]; [now left|].
        right. exists entry, l. split; [apply list_elem_of_here|easy].
      * right. exists e, l. split; [now apply list_elem_of_further|easy].
    + intros [Hin|(e & l & He & Hl & Hrole)].
      * left. destruct (entry !! "roles"); [|exact Hin].
        apply elem_of_app. now left.
      * apply elem_of_cons in He as [->|He].
        -- left. rewrite Hl. apply elem_of_app. now right.
        -- right. now exists e, l.
Qed.

Lemma elem_of_values {V} (m : gmap string V) (v : V) :
  v ∈ TokenData.values m ↔ ∃ k, m !! k = Some v.
Proof.
  unfold TokenData.values. rewrite list_elem_of_fmap. split.
  - intros ([k v'] & -> & Hkv). exists k. now apply elem_of_map_to_list.
  - intros (k & Hk). exists (k, v). split; [reflexivity|].
    now apply elem_of_map_to_list.
Qed.

(** The [roles] property lists exactly the effective role set. *)
Lemma roles_effective claims role :
  role ∈ TokenData.roles claims ↔ in_effective_role_set claims role.
Proof.
  unfold TokenData.roles, in_effective_role_set.
  set (realm :=
         if bool_decide (realm_access claims ≠ ∅)
         then match realm_access claims !! "roles" with
              | Some l => ([] ++ l)%list
              | None => []
              end
         else []).
  assert (Hrealm : role ∈ realm ↔
                   ∃ l, realm_access claims !! "roles" = Some l ∧ role ∈ l).
  { subst realm. case_bool_decide as Hne.
    - destruct (realm_access claims !! "roles") as [l|]; simpl.
      + split; [intros Hin; now exists l|now intros (l' & [= <-] & Hin)].
      + split; [now intros Hin%elem_of_nil|now intros (l & [=] & _)].
    - rewrite Hne, lookup_empty.
      split; [now intros Hin%elem_of_nil|now intros (l & [=] & _)]. }
  destruct (resource_access claims) as [ra|].
  - case_bool_decide as Hne.
    + rewrite elem_of_extend_all, Hrealm. apply or_iff_compat_l. split.
      * intros (entry & l & [resource Hres]%elem_of_values & Hl & Hin).
        now exists ra, resource, entry, l.
      * intros (ra' & resource & entry & l & [= <-] & Hres & Hl & Hin).
        exists entry, l. split; [apply elem_of_values; now exists resource|easy].
    + subst ra. rewrite Hrealm. split; [now left|].
      intros [Hl|(ra' & resource & entry & l & [= <-] & Hres & _)]; [exact Hl|].
      now rewrite lookup_empty in Hres.
  - rewrite Hrealm. split; [now left|].
    now intros [Hl|(ra' & resource & entry & l & [=] & _)].
Qed.

Lemma has_role_true claims role :
  TokenData.has_role claims role = true ↔ in_effective_role_set claims role.
Proof. unfold TokenData.has_role. now rewrite py_in_true, roles_effective. Qed.

Lemma has_any_role_true claims (required_roles : list string) :
  TokenData.has_any_role claims required_roles = true ↔
  ∃ role, role ∈ required_roles ∧ in_effective_role_set claims role.
Proof.
  unfold TokenData.has_any_role. rewrite existsb_exists.
  split; intros (role & Hin & Hrole); exists role.
  - now rewrite list_elem_of_In, <- roles_effective, <- py_in_true.
  - now rewrite <- list_elem_of_In, py_in_true, roles_effective.
Qed.

(** C6: [has_role] returns the claims unchanged exactly when the role is
    in the effective role set, and raises "Access denied" with status
    FORBIDDEN exactly when it is not; FORBIDDEN is not UNAUTHORIZED. *)
Theorem C6_has_role_iff_effective claims role :
  (has_role role claims = Ok claims ↔ in_effective_role_set claims role) ∧
  (has_role role claims = Raise (AuthException "Access denied" FORBIDDEN) ↔
   ¬ in_effective_role_set claims role) ∧
  status_value FORBIDDEN ≠ status_value UNAUTHORIZED.
Proof.
  unfold has_role. rewrite <- has_role_true.
  destruct (TokenData.has_role claims role); simpl.
  - split; [easy|]. split; [|discriminate]. split; [discriminate|easy].
  - split; [split; discriminate|]. split; [|discriminate].
    split; [discriminate|reflexivity].
Qed.

(** C7: [has_any_role] returns the claims unchanged exactly when some
    required role is in the effective role set, and otherwise raises the
    same FORBIDDEN "Access denied" as [has_role]. *)
Theorem C7_has_any_role_iff_intersects claims (required_roles : list string) :
  (has_any_role required_roles claims = Ok claims ↔
   ∃ role, role ∈ required_roles ∧ in_effective_role_set claims role) ∧
  (has_any_role required_roles claims = Raise access_denied ↔
   ¬ ∃ role, role ∈ required_roles ∧ in_effective_role_set claims role) ∧
  (∀ role, ¬ in_effective_role_set claims role →
           has_role role claims = Raise access_denied).
Proof.
  unfold has_any_role. rewrite <- has_any_role_true.
  split; [|split].
  - destruct (TokenData.has_any_role claims required_roles); simpl;
      [easy|split; discriminate].
  - destruct (TokenData.has_any_role claims required_roles); simpl;
      [split; [discriminate|easy]|split; [discriminate|reflexivity]].
  - intros role Hrole. rewrite <- has_role_true in Hrole. unfold has_role.
    now destruct (TokenData.has_role claims role).
Qed.

(** C9: with an empty list of required roles [has_any_role] denies every
    claims value with the FORBIDDEN "Access denied". *)
Theorem C9_no_required_roles_denies claims :
  has_any_role [] claims = Raise (AuthException "Access denied" FORBIDDEN).
Proof. reflexivity. Qed.

End Roles.

(** The scenario of the spec: realm role ROLE_USER, no resource roles. *)
Example scenario_user_only :
  has_role "ROLE_ADMIN" (sample_claims 0) = Raise access_denied ∧
  has_role "ROLE_USER" (sample_claims 0) = Ok (sample_claims 0) ∧
  has_any_role ["ROLE_ADMIN"; "ROLE_USER"] (sample_claims 0) = Ok (sample_claims 0).
Proof. repeat split; reflexivity. Qed.

(** * Properties of the code around the claims *)

(** ** Key lookup and token validation *)

Section KeyLookup.
Context `{External}.
Implicit Types (w : World) (token : string) (net : http_outcome)
  (kid key jwks : json) (keys : list json).

Lemma find_key_found kid keys key :
  find_key kid keys = Ok (Some key) ↔
  ∃ before after,
    keys = (before ++ key :: after)%list ∧ kid_matches kid key = true ∧
    Forall (skipped kid) before.
Proof.
  induction keys as [|k keys IH]; simpl.
  - split; [discriminate|]. intros (before & after & Heq & _).
    now destruct before.
  - destruct k as [| | | | |entries];
      try (split; [discriminate|];
           intros ([|k' before] & after & Heq & Hm & Hskip);
           [injection Heq as <- _; discriminate
           |injection Heq as <- _; apply Forall_cons in Hskip as [[Hd _] _];
            discriminate]).
    destruct (py_eq (dict_get entries "kid" JNull) kid) eqn:Hkid.
    + split.
      * intros [= <-]. exists [], keys. split; [reflexivity|].
        split; [exact Hkid|constructor].
      * intros ([|k' before] & after & Heq & Hm & Hskip).
        -- now injection Heq as <- _.
        -- injection Heq as <- _.
           apply Forall_cons in Hskip as [[_ Hno] _]. simpl in Hno. congruence.
    + rewrite IH. split.
      * intros (before & after & -> & Hm & Hskip).
        exists (JObj entries :: before), after. split; [reflexivity|].
        split; [exact Hm|]. constructor; [now split|exact Hskip].
      * intros ([|k' before] & after & Heq & Hm & Hskip).
        -- injection Heq as <- _. simpl in Hm. congruence.
        -- injection Heq as _ ->. apply Forall_cons in Hskip as [_ Hskip].
           now exists before, after.
Qed.

Lemma find_key_none kid keys :
  find_key kid keys = Ok None ↔ Forall (skipped kid) keys.
Proof.
  induction keys as [|k keys IH]; simpl.
  - split; [constructor|reflexivity].
  - destruct k as [| | | | |entries];
      try (split; [discriminate|now intros [[Hd _] _]%Forall_cons]).
    destruct (py_eq (dict_get entries "kid" JNull) kid) eqn:Hkid.
    + split; [discriminate|]. intros [[_ Hno] _]%Forall_cons.
      simpl in Hno. congruence.
    + rewrite IH. split.
      * intros Hall. constructor; [now split|exact Hall].
      * now intros [_ Hall]%Forall_cons.
Qed.

(** X1: for a readable token header and a key-set document whose "keys"
    entry is a list, [get_key_from_jwks] returns the first key of the list
    whose "kid" equals the header's, provided every key before it is a dict;
    it returns None exactly when every key is a dict with another "kid". *)
Theorem get_key_from_jwks_first_match token header entries keys :
  jwt_get_unverified_header token = LibOk header →
  dict_get entries "keys" (JArr []) = JArr keys →
  let kid := dict_get header "kid" JNull in
  (∀ key, get_key_from_jwks token (JObj entries) = Ok (Some key) ↔
          ∃ before after,
            keys = (before ++ key :: after)%list ∧ kid_matches kid key = true ∧
            Forall (skipped kid) before) ∧
  (get_key_from_jwks token (JObj entries) = Ok None ↔
   Forall (skipped kid) keys).
Proof.
  intros Hheader Hkeys kid. unfold get_key_from_jwks.
  rewrite Hheader, Hkeys. simpl. split.
  - intros key. apply find_key_found.
  - apply find_key_none.
Qed.

(** X2: a token whose header cannot be read, or for which the lookup
    yields no key or an empty one, is refused with "Invalid token signature:
    Key not found"; the key set fetched for it stays in the cache. *)
Theorem validate_token_key_not_found token net t1 t2 w jwks w1 :
  token ≠ "" →
  get_jwks net t1 (enter_validate w) = (Ok jwks, w1) →
  jwt_get_unverified_header token = LibJWTError ∨
  (∃ found : option json,
     get_key_from_jwks token jwks = Ok found ∧ key_missing found = true) →
  validate_token token net t1 t2 w = (Raise key_not_found, w1).
Proof.
  intros Htok Hjwks Hcase.
  assert (∃ found : option json,
            get_key_from_jwks token jwks = Ok found ∧ key_missing found = true)
    as (found & Hkey & Hmissing).
  { destruct Hcase as [Hheader|Hcase]; [|exact Hcase].
    exists None. unfold get_key_from_jwks. now rewrite Hheader. }
  unfold validate_token. rewrite (eqb_empty_false _ Htok).
  unfold try_except, bind, lift, raise, ret. rewrite Hjwks, Hkey.
  destruct found as [k|]; [|reflexivity]. now rewrite Hmissing.
Qed.

(** The empty token is refused with "Missing authentication token" before
    anything else happens: no request is issued and the cache slot and its
    timestamp are not touched. *)
Lemma validate_token_empty_token net t1 t2 w :
  fst (validate_token "" net t1 t2 w)
    = Raise (AuthException "Missing authentication token" UNAUTHORIZED) ∧
  http_requests (snd (validate_token "" net t1 t2 w)) = http_requests w ∧
  _jwks_cache (snd (validate_token "" net t1 t2 w)) = _jwks_cache w ∧
  _jwks_last_updated (snd (validate_token "" net t1 t2 w))
    = _jwks_last_updated w.
Proof. repeat split. Qed.

(** What [validate_token] can raise: the missing-token failure for the
    empty token only, and for the others one of four messages. *)
Lemma validate_token_raises token net t1 t2 w e :
  fst (validate_token token net t1 t2 w) = Raise e →
  (token = "" ∧ e = AuthException "Missing authentication token" UNAUTHORIZED) ∨
  (token ≠ "" ∧
   ∃ m, e = AuthException m UNAUTHORIZED ∧
        m ∈ ["Invalid token signature: Key not found"; "Token has expired";
             "Invalid authentication token";
             "Error validating authentication token"]).
Proof.
  unfold validate_token.
  destruct (String.eqb token "") eqn:Htok.
  { apply String.eqb_eq in Htok. intros [= <-]. now left. }
  apply String.eqb_neq in Htok. intros Hraise. right. split; [exact Htok|].
  revert Hraise.
  unfold try_except, bind, lift, raise, ret.
  destruct (get_jwks net t1 (enter_validate w)) as [[jwks|e0] w1] eqn:Hjwks.
  2:{ apply get_jwks_raises in Hjwks as ->. intros [= <-].
      eexists. split; [reflexivity|set_solver]. }
  destruct (get_key_from_jwks token jwks) as [[key|]|e0] eqn:Hkey.
  2:{ intros [= <-]. eexists. split; [reflexivity|set_solver]. }
  2:{ apply get_key_from_jwks_raises in Hkey as ->. intros [= <-].
      eexists. split; [reflexivity|set_solver]. }
  destruct (key_missing (Some key)).
  { intros [= <-]. eexists. split; [reflexivity|set_solver]. }
  destruct (jwk_construct key) as [public_key| |]; simpl;
    try (intros [= <-]; eexists; split; [reflexivity|set_solver]).
  destruct (to_pem public_key) as [pem| |]; simpl;
    try (intros [= <-]; eexists; split; [reflexivity|set_solver]).
  destruct (jwt_decode token pem) as [payload| |]; simpl;
    try (intros [= <-]; eexists; split; [reflexivity|set_solver]).
  destruct (JWTTokenData_init payload) as [token_data|]; simpl;
    try (intros [= <-]; eexists; split; [reflexivity|set_solver]).
  destruct (expired token_data t2); simpl; [|discriminate].
  intros [= <-]. eexists. split; [reflexivity|set_solver].
Qed.

(** X3: whatever goes wrong, [validate_token] raises an [AuthException]
    with status UNAUTHORIZED and one of its five fixed messages; no
    [JWTError], [AppException] or other exception gets out. *)
Theorem validate_token_raises_only_unauthorized token net t1 t2 w e :
  fst (validate_token token net t1 t2 w) = Raise e →
  ∃ m, e = AuthException m UNAUTHORIZED ∧ m ∈ validate_token_messages.
Proof.
  intros [[_ ->]|[_ (m & -> & Hm)]]%validate_token_raises.
  - eexists. split; [reflexivity|]. apply list_elem_of_here.
  - exists m. split; [reflexivity|]. now apply list_elem_of_further.
Qed.

(** X4: when [validate_token] returns claims, the token is not empty, it
    verifies against the key set now in the cache, that key set is not
    empty, and the expiry is not before the time of the check. *)
Theorem validate_token_success_sound token net t1 t2 w token_data w' :
  validate_token token net t1 t2 w = (Ok token_data, w') →
  token ≠ "" ∧
  verifies token (_jwks_cache w') token_data ∧
  truthy (_jwks_cache w') = true ∧
  (t2 <= inject_Z (exp token_data))%Q.
Proof.
  unfold validate_token.
  destruct (String.eqb token "") eqn:Htok; [discriminate|].
  apply String.eqb_neq in Htok.
  unfold try_except, bind, lift, raise, ret.
  destruct (get_jwks net t1 (enter_validate w)) as [[jwks|e0] w1] eqn:Hjwks;
    [|discriminate].
  apply get_jwks_returns_cache in Hjwks.
  destruct (get_key_from_jwks token jwks) as [[key|]|e0] eqn:Hkey;
    try discriminate.
  destruct (key_missing (Some key)) eqn:Hmissing; [discriminate|].
  destruct (jwk_construct key) as [public_key| |] eqn:Hconstruct;
    simpl; try discriminate.
  destruct (to_pem public_key) as [pem| |] eqn:Hpem; simpl; try discriminate.
  destruct (jwt_decode token pem) as [payload| |] eqn:Hdecode;
    simpl; try discriminate.
  destruct (JWTTokenData_init payload) as [td|] eqn:Hinit;
    simpl; try discriminate.
  destruct (expired td t2) eqn:Hexp; simpl; [discriminate|].
  intros [= <- <-]. rewrite Hjwks.
  simpl in Hmissing. apply negb_false_iff in Hmissing.
  split; [exact Htok|]. split.
  - now exists key, public_key, pem, payload.
  - split; [|now apply expired_false].
    unfold get_key_from_jwks in Hkey.
    destruct (jwt_get_unverified_header token); try discriminate.
    destruct jwks as [| | | | |entries]; try discriminate.
    destruct entries as [|entry entries]; [|reflexivity].
    simpl in Hkey. discriminate.
Qed.

(** X5: for a non-empty token the world [validate_token] leaves behind is
    the one [get_jwks] leaves behind: what the token is, and whether it is
    accepted, has no influence on the cache; at most one request is issued,
    and none while the cache is fresh. *)
Theorem validate_token_cache_effect token net t1 t2 w :
  token ≠ "" →
  snd (validate_token token net t1 t2 w)
    = snd (get_jwks net t1 (enter_validate w)) ∧
  (http_requests (snd (validate_token token net t1 t2 w))
     ≤ S (http_requests w))%nat ∧
  (needs_refresh t1 w = false →
   http_requests (snd (validate_token token net t1 t2 w)) = http_requests w).
Proof.
  intros Htok.
  assert (Hworld : snd (validate_token token net t1 t2 w)
                   = snd (get_jwks net t1 (enter_validate w))).
  { unfold validate_token. rewrite (eqb_empty_false _ Htok).
    unfold try_except, bind, lift, raise, ret.
    destruct (get_jwks net t1 (enter_validate w)) as [[jwks|e0] w1];
      [|reflexivity].
    destruct (get_key_from_jwks token jwks) as [[key|]|e0]; try reflexivity.
    destruct (key_missing (Some key)); [reflexivity|].
    destruct (jwk_construct key) as [public_key| |]; try reflexivity. simpl.
    destruct (to_pem public_key) as [pem| |]; try reflexivity. simpl.
    destruct (jwt_decode token pem) as [payload| |]; try reflexivity. simpl.
    destruct (JWTTokenData_init payload) as [td|]; try reflexivity. simpl.
    now destruct (expired td t2). }
  rewrite Hworld. split; [reflexivity|]. split.
  - apply (get_jwks_requests net t1 (enter_validate w)).
  - intros Hfresh. now rewrite get_jwks_cached.
Qed.

(** X6: a token whose key is found but whose signature or structure the
    library rejects with a [JWTError] is refused with "Invalid
    authentication token". *)
Theorem validate_token_bad_signature token net t1 t2 w jwks w1
    key public_key pem :
  token ≠ "" →
  get_jwks net t1 (enter_validate w) = (Ok jwks, w1) →
  get_key_from_jwks token jwks = Ok (Some key) → truthy key = true →
  jwk_construct key = LibOk public_key → to_pem public_key = LibOk pem →
  jwt_decode token pem = LibJWTError →
  validate_token token net t1 t2 w
    = (Raise (AuthException "Invalid authentication token" UNAUTHORIZED), w1).
Proof.
  intros Htok Hjwks Hkey Htruthy Hconstruct Hpem Hdecode.
  unfold validate_token. rewrite (eqb_empty_false _ Htok).
  unfold try_except, bind, lift, raise, ret.
  rewrite Hjwks, Hkey. unfold key_missing. rewrite Htruthy. simpl.
  rewrite Hconstruct. simpl. rewrite Hpem. simpl. now rewrite Hdecode.
Qed.

(** X7: while the cache holds a non-empty document that is not a JSON
    object and is not older than the time-to-live, every token with a
    readable header is refused with "Error validating authentication token",
    and no request is made to replace the document. *)
Theorem validate_token_malformed_key_set token header net t1 t2 w :
  token ≠ "" →
  jwt_get_unverified_header token = LibOk header →
  truthy (_jwks_cache w) = true →
  is_dict (_jwks_cache w) = false →
  (t1 <= _jwks_last_updated w + 3600)%Q →
  validate_token token net t1 t2 w
    = (Raise (AuthException "Error validating authentication token"
                            UNAUTHORIZED), enter_validate w).
Proof.
  intros Htok Hheader Htruthy Hdict Hfresh.
  unfold validate_token. rewrite (eqb_empty_false _ Htok).
  unfold try_except, bind, lift, raise, ret.
  rewrite get_jwks_cached.
  2:{ unfold needs_refresh. simpl. rewrite Htruthy. simpl.
      now apply ttl_exceeded_false. }
  simpl. unfold get_key_from_jwks. rewrite Hheader.
  now destruct (_jwks_cache w).
Qed.

End KeyLookup.

(** ** The header parser and the role gates *)

Section Gate.
Context `{External}.
Implicit Types (w : World) (net : http_outcome) (claims : JWTTokenData).

Lemma parts_of_not_empty (header scheme token : string) :
  parts_of header [scheme; token] → header ≠ "".
Proof. intros Hparts%py_split_complete ->. discriminate. Qed.

Lemma parts_of_second_part (header scheme token : string) :
  parts_of header [scheme; token] → token ≠ "".
Proof.
  intros Hparts. inversion Hparts as [|ws p rest ps _ _ _ Hrest]; subst.
  inversion Hrest as [|ws' p' rest' ps' _ [Hne _] _ _]; subst. exact Hne.
Qed.

Lemma bearer_or_not (authorization : option string) :
  (∃ header, authorization = Some header ∧ bearer_header header) ∨
  ¬ (∃ header, authorization = Some header ∧ bearer_header header).
Proof.
  destruct authorization as [header|]; [|right; now intros (h & [=] & _)].
  destruct (negb (Nat.eqb (length (py_split header)) 2)
            || negb (String.eqb (py_lower (nth 0 (py_split header) "")) "bearer"))
    eqn:Htest.
  - right. intros (h & [= <-] & Hb). apply header_test_spec in Hb. congruence.
  - left. exists header. split; [reflexivity|now apply header_test_spec].
Qed.

(** On a bearer header [get_token_data] is [validate_token] on the second
    part. *)
Lemma get_token_data_on_bearer (header scheme token : string) net t1 t2 w :
  parts_of header [scheme; token] → py_lower scheme = "bearer" →
  get_token_data (Some header) net t1 t2 w = validate_token token net t1 t2 w.
Proof.
  intros Hparts Hscheme. unfold get_token_data.
  rewrite (eqb_empty_false _ (parts_of_not_empty _ _ _ Hparts)).
  apply py_split_complete in Hparts. rewrite Hparts. simpl.
  now rewrite Hscheme.
Qed.

(** Off the bearer headers [get_token_data] raises at once. *)
Lemma get_token_data_off_bearer (authorization : option string) net t1 t2 w :
  ¬ (∃ header, authorization = Some header ∧ bearer_header header) →
  get_token_data authorization net t1 t2 w = (Raise missing_header, w) ∨
  get_token_data authorization net t1 t2 w = (Raise invalid_header_format, w).
Proof.
  intros Hno. destruct authorization as [header|]; [|now left].
  unfold get_token_data. destruct (String.eqb header ""); [now left|].
  destruct (negb _ || negb _) eqn:Htest; [now right|].
  apply header_test_spec in Htest. destruct Hno. now exists header.
Qed.

Lemma get_token_data_raises (authorization : option string) net t1 t2 w e :
  fst (get_token_data authorization net t1 t2 w) = Raise e →
  ∃ m, e = AuthException m UNAUTHORIZED ∧
       m ≠ "Missing authentication token".
Proof.
  destruct (bearer_or_not authorization)
    as [(header & -> & scheme & token & Hparts & Hscheme)|Hno].
  - rewrite (get_token_data_on_bearer _ _ _ _ _ _ _ Hparts Hscheme).
    intros [[Hempty _]|[_ (m & -> & Hm)]]%validate_token_raises.
    + now apply parts_of_second_part in Hparts.
    + exists m. split; [reflexivity|]. intros ->.
      repeat (apply elem_of_cons in Hm as [Hm|Hm]; [discriminate|]).
      now apply elem_of_nil in Hm.
  - destruct (get_token_data_off_bearer authorization net t1 t2 w Hno) as [-> | ->];
      intros [= <-]; eexists; (split; [reflexivity|discriminate]).
Qed.

(** X8: for a header made of two whitespace-separated parts, the first
    "bearer" in any case, [get_token_data] does exactly what
    [validate_token] does on the second part, whatever whitespace surrounds
    the parts. *)
Theorem get_token_data_bearer (header scheme token : string) net t1 t2 w :
  parts_of header [scheme; token] →
  py_lower scheme = "bearer" →
  get_token_data (Some header) net t1 t2 w = validate_token token net t1 t2 w.
Proof. apply get_token_data_on_bearer. Qed.

(** X9: [get_token_data] enters [validate_token] exactly for the bearer
    headers; for an absent header and every other header value it leaves
    the world untouched, so no request is issued. *)
Theorem get_token_data_validates_iff_bearer
    (authorization : option string) net t1 t2 w :
  (validate_calls (snd (get_token_data authorization net t1 t2 w))
     = S (validate_calls w) ↔
   ∃ header, authorization = Some header ∧ bearer_header header) ∧
  (¬ (∃ header, authorization = Some header ∧ bearer_header header) →
   snd (get_token_data authorization net t1 t2 w) = w).
Proof.
  assert (Hoff : ¬ (∃ header, authorization = Some header ∧ bearer_header header) →
                 snd (get_token_data authorization net t1 t2 w) = w).
  { intros Hno.
    now destruct (get_token_data_off_bearer authorization net t1 t2 w Hno)
      as [-> | ->]. }
  split; [|exact Hoff]. split.
  - intros Hcalls.
    destruct (bearer_or_not authorization)
      as [Hyes|Hno]; [exact Hyes|].
    rewrite (Hoff Hno) in Hcalls. lia.
  - intros (header & -> & scheme & token & Hparts & Hscheme).
    rewrite (get_token_data_on_bearer _ _ _ _ _ _ _ Hparts Hscheme).
    apply validate_token_counted.
Qed.

(** X10: [get_token_data] never raises "Missing authentication token": the
    token it hands to [validate_token] is a part of the header and so is
    not empty; and all it raises has status UNAUTHORIZED. *)
Theorem get_token_data_never_missing_token
    (authorization : option string) net t1 t2 w :
  fst (get_token_data authorization net t1 t2 w)
    ≠ Raise (AuthException "Missing authentication token" UNAUTHORIZED) ∧
  ∀ m, fst (get_token_data authorization net t1 t2 w)
         ≠ Raise (AuthException m FORBIDDEN).
Proof.
  split.
  - intros (m & [= <-] & Hm)%get_token_data_raises. now apply Hm.
  - intros m (m' & [=] & _)%get_token_data_raises.
Qed.

(** X11: requiring any role of a one-element list is requiring that role. *)
Theorem has_any_role_singleton (role : string) claims :
  has_any_role [role] claims = has_role role claims.
Proof.
  unfold has_any_role, has_role, TokenData.has_any_role, TokenData.has_role.
  simpl. now rewrite orb_false_r.
Qed.

(** X12: [has_all_roles] holds exactly when every required role is in the
    effective role set; in particular it holds for the empty list, for which
    [has_any_role] does not. *)
Theorem has_all_roles_iff claims (required_roles : list string) :
  (TokenData.has_all_roles claims required_roles = true ↔
   ∀ role, role ∈ required_roles → in_effective_role_set claims role) ∧
  TokenData.has_all_roles claims [] = true ∧
  TokenData.has_any_role claims [] = false.
Proof.
  split; [|split; reflexivity].
  unfold TokenData.has_all_roles. rewrite forallb_forall. split.
  - intros Hall role Hin. apply roles_effective, py_in_true, Hall.
    now apply list_elem_of_In.
  - intros Hall role Hin. apply py_in_true, roles_effective, Hall.
    now apply list_elem_of_In.
Qed.

(** X13: for a non-empty list of required roles, claims that have all of
    them pass the any-role gate. *)
Theorem has_all_roles_implies_any claims (required_roles : list string) :
  required_roles ≠ [] →
  TokenData.has_all_roles claims required_roles = true →
  has_any_role required_roles claims = Ok claims.
Proof.
  intros Hne Hall. destruct required_roles as [|role rest]; [done|].
  unfold has_any_role, TokenData.has_any_role. simpl in *.
  apply andb_true_iff in Hall as [Hrole _]. now rewrite Hrole.
Qed.

(** X14: the any-role gate is monotone in the list of required roles:
    claims granted for a list are granted for every list that contains its
    roles. *)
Theorem has_any_role_monotone claims (roles1 roles2 : list string) :
  (∀ role, role ∈ roles1 → role ∈ roles2) →
  has_any_role roles1 claims = Ok claims →
  has_any_role roles2 claims = Ok claims.
Proof.
  intros Hsub Hgrant.
  assert (Hany : ∀ l, has_any_role l claims = Ok claims ↔
                      TokenData.has_any_role claims l = true).
  { intros l. unfold has_any_role.
    destruct (TokenData.has_any_role claims l); simpl; [easy|].
    split; discriminate. }
  apply Hany, has_any_role_true. apply Hany, has_any_role_true in Hgrant.
  destruct Hgrant as (role & Hin & Hrole). exists role. split; [auto|exact Hrole].
Qed.

(** X15: the role dependency answers "Access denied" exactly when the
    header carried a token that validated and whose claims lack the role,
    and returns claims exactly when the token validated and they have it;
    every other failure is the one of [get_token_data], and the world is
    the one [get_token_data] leaves. *)
Theorem has_role_dependency_outcome (role : string)
    (authorization : option string) net t1 t2 w :
  (fst (has_role_dependency role authorization net t1 t2 w) = Raise access_denied ↔
   ∃ claims, fst (get_token_data authorization net t1 t2 w) = Ok claims ∧
             ¬ in_effective_role_set claims role) ∧
  (∀ claims,
     fst (has_role_dependency role authorization net t1 t2 w) = Ok claims ↔
     fst (get_token_data authorization net t1 t2 w) = Ok claims ∧
     in_effective_role_set claims role) ∧
  (∀ e, fst (get_token_data authorization net t1 t2 w) = Raise e →
        fst (has_role_dependency role authorization net t1 t2 w) = Raise e) ∧
  snd (has_role_dependency role authorization net t1 t2 w)
    = snd (get_token_data authorization net t1 t2 w).
Proof.
  unfold has_role_dependency, bind, lift.
  pose proof (get_token_data_raises authorization net t1 t2 w) as Hraises.
  destruct (get_token_data authorization net t1 t2 w) as [[claims|e] w1]; simpl in *.
  - pose proof (Hrole := has_role_true claims role). unfold has_role.
    destruct (TokenData.has_role claims role); simpl.
    + split; [|split; [|split; [discriminate|reflexivity]]].
      * split; [discriminate|]. intros (c & [= <-] & Hno).
        destruct Hno. now apply Hrole.
      * intros c. split; [intros [= <-]; split; [reflexivity|now apply Hrole]|].
        now intros [[= <-] _].
    + split; [|split; [|split; [discriminate|reflexivity]]].
      * split; [|reflexivity]. intros _. exists claims.
        split; [reflexivity|]. intros Hin%Hrole. discriminate.
      * intros c. split; [discriminate|].
        intros [[= <-] Hin%Hrole]. discriminate.
  - split; [|split; [|split; [now intros e' [= <-]|reflexivity]]].
    + split; [|now intros (c & [=] & _)].
      intros [= ->]. now destruct (Hraises _ eq_refl) as (m & [=] & _).
    + intros c. split; [discriminate|now intros [[=] _]].
Qed.

End Gate.

(** ** Error responses *)

Section Responses.
Context `{External}.
Implicit Types (w : World) (net : http_outcome) (foreign : string).

(** X16: for an exception of the application the three handlers build the
    same response, carrying the exception's own status and message, so the
    answer does not depend on which of them the framework picks; status
    line and body agree for every exception. *)
Theorem handlers_agree foreign (m : string) (s : HTTPStatus) :
  Errors.general_exception_handler foreign (AppException m s)
    = Errors.app_exception_handler m s ∧
  Errors.general_exception_handler foreign (AuthException m s)
    = Errors.auth_exception_handler m s ∧
  Errors.auth_exception_handler m s = Errors.app_exception_handler m s ∧
  ∀ e, Errors.status_code (Errors.handle_exception foreign e)
       = Errors.status (Errors.content (Errors.handle_exception foreign e)).
Proof.
  repeat split. now intros [m' s'|m' s'| |].
Qed.

(** X17: when the role dependency fails, the response has status 401 or
    403, and it is 403 exactly when the header carried a token that
    validated and whose claims lack the role. *)
Theorem role_dependency_response_status foreign (role : string)
    (authorization : option string) net t1 t2 w response :
  Errors.failure_response foreign
    (fst (has_role_dependency role authorization net t1 t2 w)) = Some response →
  (Errors.status_code response = 401%Z ∨ Errors.status_code response = 403%Z) ∧
  (Errors.status_code response = 403%Z ↔
   ∃ claims, fst (get_token_data authorization net t1 t2 w) = Ok claims ∧
             ¬ in_effective_role_set claims role).
Proof.
  unfold has_role_dependency, bind, lift.
  pose proof (get_token_data_raises authorization net t1 t2 w) as Hraises.
  destruct (get_token_data authorization net t1 t2 w) as [[claims|e] w1];
    simpl in *.
  - pose proof (Hrole := has_role_true claims role). unfold has_role.
    destruct (TokenData.has_role claims role); simpl; [discriminate|].
    intros [= <-]. simpl. split; [now right|]. split; [|reflexivity].
    intros _. exists claims. split; [reflexivity|].
    intros Hin%Hrole. discriminate.
  - destruct (Hraises e eq_refl) as (m & -> & _). intros [= <-]. simpl.
    split; [now left|]. split; [discriminate|now intros (c & [=] & _)].
Qed.

End Responses.

(** ** Token formatting for logs *)

Section Formatting.
Import JwtUtils.
Implicit Types (s word token : string) (sep c : ascii).

Lemma length_split_on sep s :
  ∀ word, length (split_on sep word s) = S (count_char sep s).
Proof.
  induction s as [|c s IH]; intros word; simpl; [reflexivity|].
  destruct (Ascii.eqb c sep); simpl; now rewrite IH.
Qed.

Lemma length_append s1 s2 :
  String.length (s1 ++ s2) = (String.length s1 + String.length s2)%nat.
Proof.
  induction s1 as [|c s1 IH]; [reflexivity|].
  rewrite append_cons. simpl. now rewrite IH.
Qed.

Lemma length_substring_0 (n : nat) s :
  String.length (substring 0 n s) = Nat.min n (String.length s).
Proof.
  revert s. induction n as [|n IH]; intros [|c s]; simpl; try reflexivity.
  now rewrite IH.
Qed.

Lemma prefix_substring_0 (n : nat) s :
  String.prefix (substring 0 n s) s = true.
Proof.
  revert s. induction n as [|n IH]; intros [|c s]; simpl; try reflexivity.
  destruct (ascii_dec c c); [apply IH|congruence].
Qed.

(** X18: [format_token_for_logging] answers "<empty token>" for the empty
    token, "<invalid token format>" for a token that does not contain
    exactly two dots, and otherwise the first ten characters of the token
    followed by three dots. *)
Theorem format_token_for_logging_cases token :
  (token = "" → format_token_for_logging token = "<empty token>") ∧
  (token ≠ "" → count_char "." token ≠ 2 →
   format_token_for_logging token = "<invalid token format>") ∧
  (count_char "." token = 2 →
   format_token_for_logging token = substring 0 10 token ++ "...").
Proof.
  unfold format_token_for_logging. rewrite length_split_on. repeat split.
  - now intros ->.
  - intros Hne Hcount. rewrite (eqb_empty_false _ Hne).
    destruct (Nat.eqb_spec (S (count_char "." token)) 3) as [Heq|Hneq];
      [|reflexivity].
    destruct Hcount. lia.
  - intros Hcount. destruct (String.eqb_spec token "") as [->|Hne];
      [discriminate|].
    now rewrite Hcount.
Qed.

(** X19: the text produced for the log is at most 22 characters long and
    shows at most the first ten characters of the token: it is one of the
    two fixed texts, or a prefix of the token of at most ten characters
    followed by three dots. *)
Theorem format_token_for_logging_bounded token :
  (String.length (format_token_for_logging token) ≤ 22)%nat ∧
  (format_token_for_logging token = "<empty token>" ∨
   format_token_for_logging token = "<invalid token format>" ∨
   ∃ shown, format_token_for_logging token = shown ++ "..." ∧
            String.prefix shown token = true ∧
            (String.length shown ≤ 10)%nat).
Proof.
  unfold format_token_for_logging.
  destruct (String.eqb token ""); [split; [vm_compute; lia|now left]|].
  destruct (negb _); [split; [vm_compute; lia|right; now left]|].
  split.
  - rewrite length_append, length_substring_0.
    change (String.length "...") with 3%nat. lia.
  - right. right. exists (substring 0 10 token). split; [reflexivity|].
    split; [apply prefix_substring_0|]. rewrite length_substring_0. lia.
Qed.

End Formatting.

(** ** Pre-signed uploads *)

Section Uploads.
Import R2.
Implicit Types (cfg : Settings) (env : nat → Attempt)
  (md : option (gmap string string)) (data : UploadData).

Lemma prefix_append (p s : string) : String.prefix p (p ++ s) = true.
Proof.
  induction p as [|c p IH]; [now destruct s|].
  rewrite append_cons. simpl. destruct (ascii_dec c c); [exact IH|congruence].
Qed.

Lemma upload_key_prefixed (uuid4 key_arg : string) :
  String.prefix "uploads/" (upload_key uuid4 key_arg) = true.
Proof.
  unfold upload_key. destruct (String.eqb key_arg ""); [apply prefix_append|].
  destruct (String.prefix "uploads/" key_arg) eqn:Hp; simpl;
    [exact Hp|apply prefix_append].
Qed.

Lemma upload_key_not_empty (uuid4 key_arg : string) :
  upload_key uuid4 key_arg ≠ "".
Proof.
  intros Hempty. pose proof (upload_key_prefixed uuid4 key_arg) as Hp.
  rewrite Hempty in Hp. discriminate.
Qed.

(** The copy loop leaves, under every key, what the last insertion or the
    initial dict put there. *)
Lemma copy_loop_lookup (l : list (string * string)) :
  NoDup l.*1 →
  ∀ (acc : gmap string string) k,
    foldl (fun meta_dict kv => <[kv.1 := kv.2]> meta_dict) acc l !! k
    = match list_to_map (M := gmap string string) l !! k with
      | Some v => Some v
      | None => acc !! k
      end.
Proof.
  induction l as [|[k0 v0] l IH]; intros Hnd acc k; simpl.
  - now rewrite lookup_empty.
  - apply NoDup_cons in Hnd as [Hk0 Hnd]. rewrite (IH Hnd).
    destruct (decide (k0 = k)) as [->|Hne].
    + rewrite lookup_insert_eq.
      rewrite (not_elem_of_list_to_map_1 (M := gmap string) l k Hk0).
      now rewrite lookup_insert_eq.
    + rewrite !(lookup_insert_ne _ k0 k) by exact Hne. reflexivity.
Qed.

(** The copy loop of [get_upload_url] rebuilds the metadata dict. *)
Lemma copy_items_id (m : gmap string string) : copy_items m = m.
Proof.
  apply map_eq. intros k. unfold copy_items.
  rewrite copy_loop_lookup by apply NoDup_fst_map_to_list.
  rewrite list_to_map_to_list, lookup_empty. now destruct (m !! k).
Qed.

Lemma retry_result {A : Type} (run : nat → A + string) :
  ∀ more n (r : A + string),
    retry more n run = r ↔
    ∃ i, (i ≤ more)%nat ∧ run (n + i)%nat = r ∧
         (∀ j, (j < i)%nat → ∃ text, run (n + j)%nat = inr text) ∧
         ((∃ v, r = inl v) ∨ i = more).
Proof.
  induction more as [|more IH]; intros n r; simpl.
  - split.
    + intros Hr. exists 0%nat. rewrite Nat.add_0_r.
      split; [lia|]. split; [now destruct (run n)|].
      split; [intros j Hj; lia|now right].
    + intros (i & Hi & Hrun & _). assert (i = 0)%nat as -> by lia.
      rewrite Nat.add_0_r in Hrun. now destruct (run n).
  - destruct (run n) as [v|text] eqn:Hn.
    + split.
      * intros <-. exists 0%nat. rewrite Nat.add_0_r.
        split; [lia|]. split; [exact Hn|].
        split; [intros j Hj; lia|left; now exists v].
      * intros (i & Hi & Hrun & Hbefore & _). destruct i as [|i].
        -- rewrite Nat.add_0_r in Hrun. congruence.
        -- destruct (Hbefore 0%nat) as (text & Htext); [lia|].
           rewrite Nat.add_0_r in Htext. congruence.
    + rewrite IH. split.
      * intros (i & Hi & Hrun & Hbefore & Hlast). exists (S i).
        split; [lia|]. rewrite Nat.add_succ_r. split; [exact Hrun|].
        split; [|destruct Hlast as [Hv| ->]; [now left|now right]].
        intros [|j] Hj.
        -- rewrite Nat.add_0_r. now exists text.
        -- rewrite Nat.add_succ_r. apply Hbefore. lia.
      * intros (i & Hi & Hrun & Hbefore & Hlast). destruct i as [|i].
        -- rewrite Nat.add_0_r in Hrun.
           destruct Hlast as [(v & ->)|Hm]; [congruence|lia].
        -- exists i. split; [lia|]. rewrite Nat.add_succ_r in Hrun.
           split; [exact Hrun|]. split.
           ++ intros j Hj. specialize (Hbefore (S j)).
              rewrite Nat.add_succ_r in Hbefore. apply Hbefore. lia.
           ++ destruct Hlast as [Hv|Hm]; [now left|right; lia].
Qed.

(** X20: whatever key the caller passes, the key [get_upload_url] returns
    starts with "uploads/", a key that already does is kept as it is, and
    the public URL is the configured base, a slash and that key; the method
    is PUT and the metadata and expiry are handed back unchanged. *)
Theorem get_upload_url_key cfg env (key_arg : string) md data :
  get_upload_url cfg env key_arg md = inl data →
  String.prefix "uploads/" (key data) = true ∧
  (String.prefix "uploads/" key_arg = true → key data = key_arg) ∧
  public_url data = public_url_base cfg ++ "/" ++ key data ∧
  method data = "PUT" ∧
  metadata data = md ∧
  expires_in data = presigned_url_expiration cfg.
Proof.
  unfold get_upload_url. intros (i & _ & Hrun & _)%retry_result.
  unfold get_upload_url_once in Hrun.
  destruct (generate_presigned_url _ _ _); [|discriminate].
  injection Hrun as <-. simpl.
  split; [apply upload_key_prefixed|]. split; [|easy].
  intros Hp. unfold upload_key.
  destruct (String.eqb_spec key_arg "") as [->|_]; [discriminate|].
  now rewrite Hp.
Qed.

(** X21: the key rule is idempotent: applied to a key it produced, with
    whatever fresh uuid, it returns that key. *)
Theorem upload_key_idempotent (uuid4 uuid4' key_arg : string) :
  upload_key uuid4' (upload_key uuid4 key_arg) = upload_key uuid4 key_arg.
Proof.
  unfold upload_key at 1.
  rewrite (eqb_empty_false _ (upload_key_not_empty uuid4 key_arg)).
  now rewrite upload_key_prefixed.
Qed.

(** X22: [get_upload_url] runs its body at most three times: it returns the
    data of the first execution that succeeds, if one of the first three
    does, and otherwise raises what the third execution raised. *)
Theorem get_upload_url_three_attempts cfg env (key_arg : string) md :
  let run n := get_upload_url_once cfg (env n) key_arg md in
  (∀ data,
     get_upload_url cfg env key_arg md = inl data ↔
     ∃ i, (i < 3)%nat ∧ run i = inl data ∧
          ∀ j, (j < i)%nat → ∃ text, run j = inr text) ∧
  (∀ text,
     get_upload_url cfg env key_arg md = inr text ↔
     (∃ text0, run 0%nat = inr text0) ∧ (∃ text1, run 1%nat = inr text1) ∧
     run 2%nat = inr text).
Proof.
  intros run. unfold get_upload_url. fold run. split.
  - intros data. rewrite retry_result. simpl. split.
    + intros (i & Hi & Hrun & Hbefore & _). exists i.
      split; [lia|]. split; [exact Hrun|exact Hbefore].
    + intros (i & Hi & Hrun & Hbefore). exists i.
      split; [lia|]. split; [exact Hrun|]. split; [exact Hbefore|].
      left. now exists data.
  - intros text. rewrite retry_result. simpl. split.
    + intros (i & Hi & Hrun & Hbefore & [(v & [=])| ->]).
      split; [apply Hbefore; lia|]. split; [apply Hbefore; lia|exact Hrun].
    + intros (H0 & H1 & H2). exists 2%nat. split; [lia|].
      split; [exact H2|]. split; [|now right].
      intros [|[|j]] Hj; [exact H0|exact H1|lia].
Qed.


(** X24: the parameters handed to the signing call name the configured
    bucket and the final key; "ContentType" is the metadata's
    "content-type" entry when there is one, and "Metadata" is the caller's
    metadata dict itself when it is not empty, and is left out otherwise. *)
Theorem upload_params_metadata cfg (final_key : string) md :
  Bucket (upload_params cfg final_key md) = bucket_name cfg ∧
  Key (upload_params cfg final_key md) = final_key ∧
  ContentType (upload_params cfg final_key md)
    = (md ≫= fun m => m !! "content-type") ∧
  Metadata (upload_params cfg final_key md)
    = match md with
      | Some m => if bool_decide (m = ∅) then None else Some m
      | None => None
      end.
Proof.
  unfold upload_params. simpl. split; [reflexivity|]. split; [reflexivity|].
  destruct md as [m|]; simpl; [|easy].
  rewrite copy_items_id.
  destruct (bool_decide_reflect (m ≠ ∅)) as [Hne|He].
  - rewrite bool_decide_eq_false_2 by exact Hne. easy.
  - apply dec_stable in He. subst m.
    rewrite bool_decide_eq_true_2 by reflexivity. now rewrite lookup_empty.
Qed.

End Uploads.

(** ** Validation during an outage of the key-set endpoint *)

Section Outage.
Context `{External}.
Implicit Types (w : World) (token : string) (net : http_outcome).

(** X25: while the cache is fresh the endpoint is not consulted, so what it
    would answer, or whether it is reachable at all, makes no difference to
    a validation. *)
Theorem validate_token_ignores_endpoint_when_fresh token net net' t1 t2 w :
  needs_refresh t1 w = false →
  validate_token token net t1 t2 w = validate_token token net' t1 t2 w.
Proof.
  intros Hfresh. unfold validate_token.
  destruct (String.eqb token ""); [reflexivity|].
  unfold try_except, bind.
  now rewrite !(get_jwks_cached _ t1 (enter_validate w)) by exact Hfresh.
Qed.

(** X26: once a cached key set is older than the time-to-live, a failing
    endpoint makes every validation fail with "Error validating
    authentication token", although the old key set is still in the cache
    and stays there. *)
Theorem validate_token_stale_cache_outage token net t1 t2 w :
  token ≠ "" →
  (_jwks_last_updated w + 3600 < t1)%Q →
  fetch_document net = None →
  fst (validate_token token net t1 t2 w)
    = Raise (AuthException "Error validating authentication token"
                           UNAUTHORIZED) ∧
  _jwks_cache (snd (validate_token token net t1 t2 w)) = _jwks_cache w ∧
  _jwks_last_updated (snd (validate_token token net t1 t2 w))
    = _jwks_last_updated w.
Proof.
  intros Htok Hstale Hfetch.
  unfold validate_token. rewrite (eqb_empty_false _ Htok).
  unfold try_except, bind. rewrite get_jwks_failed; [easy| |exact Hfetch].
  unfold needs_refresh. apply orb_true_iff. right.
  now apply ttl_exceeded_true.
Qed.

End Outage.

Lemma validate_token_ignores_endpoint_when_fresh_witness :
  @validate_token (sample_external 1000) "abc.def.ghi" (Response 500 None)
     10 10 world_fetched_at_0
    = @validate_token (sample_external 1000) "abc.def.ghi"
        (Response 200 (Some other_jwks)) 10 10 world_fetched_at_0.
Proof.
  apply (@validate_token_ignores_endpoint_when_fresh (sample_external 1000)).
  reflexivity.
Defined.

(** The key set fetched at time 0, a token valid until 5000, the endpoint
    down at time 4000. *)
Lemma validate_token_stale_cache_outage_witness :
  fst (@validate_token (sample_external 5000) "abc.def.ghi" (Response 500 None)
         4000 4000 world_fetched_at_0)
    = Raise (AuthException "Error validating authentication token" UNAUTHORIZED) ∧
  _jwks_cache (snd (@validate_token (sample_external 5000) "abc.def.ghi"
                      (Response 500 None) 4000 4000 world_fetched_at_0))
    = sample_jwks.
Proof.
  destruct (@validate_token_stale_cache_outage (sample_external 5000)
              "abc.def.ghi" (Response 500 None) 4000 4000 world_fetched_at_0)
    as (Hraise & Hcache & _).
  - discriminate.
  - reflexivity.
  - reflexivity.
  - split; [exact Hraise|exact Hcache].
Defined.

(** ** The properties at sample inputs *)

Lemma get_key_from_jwks_first_match_witness :
  @get_key_from_jwks (sample_external 0) "abc.def.ghi" sample_jwks
    = Ok (Some sample_key) ∧
  ¬ @get_key_from_jwks (sample_external 0) "abc.def.ghi" sample_jwks = Ok None.
Proof.
  pose proof (@get_key_from_jwks_first_match (sample_external 0) "abc.def.ghi"
                sample_header [("keys", JArr [sample_key])] [sample_key]
                eq_refl eq_refl) as [Hfound Hnone].
  split.
  - apply Hfound. exists [], []. repeat split. constructor.
  - intros Hn. apply Hnone in Hn. apply Forall_cons in Hn as [[_ Hm] _].
    discriminate.
Defined.

Lemma validate_token_key_not_found_witness :
  @validate_token (sample_external 1000) "abc.def.ghi" TransportError 10 10
     (world_caching other_jwks)
    = (Raise key_not_found, enter_validate (world_caching other_jwks)).
Proof.
  apply (@validate_token_key_not_found (sample_external 1000) "abc.def.ghi"
           TransportError 10 10 (world_caching other_jwks) other_jwks).
  - discriminate.
  - reflexivity.
  - right. exists None. split; reflexivity.
Defined.

Lemma validate_token_raises_only_unauthorized_witness :
  ∃ m, AuthException "Error validating authentication token" UNAUTHORIZED
         = AuthException m UNAUTHORIZED ∧
       m ∈ validate_token_messages.
Proof.
  apply (@validate_token_raises_only_unauthorized (sample_external 1000)
           "abc.def.ghi" (Response 500 None) 100 100 initial_world).
  reflexivity.
Defined.

Lemma validate_token_success_sound_witness :
  "abc.def.ghi" ≠ "" ∧
  @verifies (sample_external 1000) "abc.def.ghi"
     (_jwks_cache (enter_validate world_fetched_at_0)) (sample_claims 1000) ∧
  truthy (_jwks_cache (enter_validate world_fetched_at_0)) = true ∧
  (1000 <= inject_Z (exp (sample_claims 1000)))%Q.
Proof.
  apply (@validate_token_success_sound (sample_external 1000) "abc.def.ghi"
           TransportError 1000 1000 world_fetched_at_0).
  reflexivity.
Defined.

Lemma validate_token_cache_effect_witness :
  snd (@validate_token (sample_external 1000) "abc.def.ghi"
         (Response 200 (Some other_jwks)) 4000 4000 world_fetched_at_0)
    = snd (get_jwks (Response 200 (Some other_jwks)) 4000
             (enter_validate world_fetched_at_0)) ∧
  (http_requests (snd (@validate_token (sample_external 1000) "abc.def.ghi"
                         (Response 200 (Some other_jwks)) 4000 4000
                         world_fetched_at_0))
     ≤ S (http_requests world_fetched_at_0))%nat.
Proof.
  destruct (@validate_token_cache_effect (sample_external 1000) "abc.def.ghi"
              (Response 200 (Some other_jwks)) 4000 4000 world_fetched_at_0)
    as (Hworld & Hrequests & _).
  - discriminate.
  - split; [exact Hworld|exact Hrequests].
Defined.

Lemma validate_token_bad_signature_witness :
  @validate_token rejecting_external "abc.def.ghi" TransportError 10 10
     world_fetched_at_0
    = (Raise (AuthException "Invalid authentication token" UNAUTHORIZED),
       enter_validate world_fetched_at_0).
Proof.
  apply (@validate_token_bad_signature rejecting_external "abc.def.ghi"
           TransportError 10 10 world_fetched_at_0 sample_jwks
           (enter_validate world_fetched_at_0) sample_key sample_key
           "-----BEGIN PUBLIC KEY-----");
    solve [discriminate | reflexivity].
Defined.

Lemma validate_token_malformed_key_set_witness :
  @validate_token (sample_external 1000) "abc.def.ghi" TransportError 10 10
     (world_caching (JArr [JStr "keys"]))
    = (Raise (AuthException "Error validating authentication token" UNAUTHORIZED),
       enter_validate (world_caching (JArr [JStr "keys"]))).
Proof.
  apply (@validate_token_malformed_key_set (sample_external 1000) "abc.def.ghi"
           sample_header TransportError 10 10 (world_caching (JArr [JStr "keys"])));
    solve [discriminate | reflexivity | vm_compute; discriminate].
Defined.

Lemma get_token_data_bearer_witness :
  @get_token_data (sample_external 1000) (Some "  beaRer   abc.def.ghi ")
     TransportError 10 10 world_fetched_at_0
    = @validate_token (sample_external 1000) "abc.def.ghi"
        TransportError 10 10 world_fetched_at_0.
Proof.
  apply (@get_token_data_bearer (sample_external 1000)
           "  beaRer   abc.def.ghi " "beaRer" "abc.def.ghi").
  - exact (py_split_sound "  beaRer   abc.def.ghi ").
  - reflexivity.
Defined.

Lemma has_all_roles_implies_any_witness :
  has_any_role ["ROLE_USER"] (sample_claims 0) = Ok (sample_claims 0).
Proof.
  apply (has_all_roles_implies_any (sample_claims 0) ["ROLE_USER"]).
  - discriminate.
  - reflexivity.
Defined.

Lemma has_any_role_monotone_witness :
  has_any_role ["ROLE_ADMIN"; "ROLE_USER"] (sample_claims 0)
    = Ok (sample_claims 0).
Proof.
  apply (has_any_role_monotone (sample_claims 0) ["ROLE_USER"]
           ["ROLE_ADMIN"; "ROLE_USER"]).
  - intros role Hin. apply list_elem_of_further. exact Hin.
  - reflexivity.
Defined.

(** A user without ROLE_ADMIN calls an endpoint that requires it. *)
Lemma role_dependency_response_status_witness :
  (Errors.status_code (Errors.handle_exception "" access_denied) = 401%Z ∨
   Errors.status_code (Errors.handle_exception "" access_denied) = 403%Z) ∧
  (Errors.status_code (Errors.handle_exception "" access_denied) = 403%Z ↔
   ∃ claims,
     fst (@get_token_data (sample_external 1000) (Some "Bearer abc.def.ghi")
            TransportError 10 10 world_fetched_at_0) = Ok claims ∧
     ¬ in_effective_role_set claims "ROLE_ADMIN").
Proof.
  apply (@role_dependency_response_status (sample_external 1000) ""
           "ROLE_ADMIN" (Some "Bearer abc.def.ghi") TransportError 10 10
           world_fetched_at_0).
  reflexivity.
Defined.

(** Signing fails twice and works the third time, for the key "report.pdf". *)
Lemma get_upload_url_key_witness :
  ∃ data,
    R2.get_upload_url sample_settings third_time_lucky "report.pdf" None
      = inl data ∧
    R2.key data = "uploads/report.pdf" ∧
    String.prefix "uploads/" (R2.key data) = true ∧
    R2.public_url data = "https://files.example.org/uploads/report.pdf".
Proof.
  eexists. split; [reflexivity|]. split; [reflexivity|].
  destruct (get_upload_url_key sample_settings third_time_lucky
              "report.pdf" None _ eq_refl) as (Hprefix & _ & Hurl & _).
  split; [exact Hprefix|exact Hurl].
Defined.

